(** * Shallow embedding of the nhp-dwiproc derivative kernels and stages

    Source files: [lib/dwi.py], [app/utils.py],
    [workflow/diffusion/preprocess/denoise.py],
    [workflow/diffusion/tractography.py].

    Python exceptions become the [Err] branch of a small result monad;
    Python [dict]s keyed by strings become stdpp [gmap]s; floating-point
    numbers are idealised as rationals [Q] (numpy dtypes are kept where the
    code depends on them). *)

From Stdlib Require Import QArith Qabs Lia.
From stdpp Require Import base list strings gmap pretty.
From Stdlib Require Import Ascii.

Open Scope string_scope.

(* ------------------------------------------------------------------ *)
(** ** Python exceptions and the result monad *)

Inductive exn : Type :=
  | KeyError (key : string)
  | IndexError
  | ValueError (msg : string)
  | NotImplementedError
  | UFuncTypeError
  | FileNotFoundError
  | FileExistsError
  | NotADirectoryError
  | IsADirectoryError
  | SameFileError
  | AttributeError
  | PermissionError.

Inductive result (A : Type) : Type :=
  | Ok (a : A)
  | Err (e : exn).
Arguments Ok {A} a.
Arguments Err {A} e.

Global Instance result_ret : MRet result := fun _ a => Ok a.
Global Instance result_bind : MBind result :=
  fun _ _ f m => match m with Ok a => f a | Err e => Err e end.

(** Python [s[i]] on a string: the one-character string, or [IndexError]. *)
Definition py_str_index (s : string) (i : nat) : result string :=
  match String.get i s with
  | Some c => Ok (String c EmptyString)
  | None => Err IndexError
  end.

(** Python [s[i:]]. *)
Definition py_str_slice_from (s : string) (i : nat) : string :=
  String.substring i (String.length s - i) s.

(** Python [str(n)] for a non-negative [int]. *)
Definition py_str_int (n : nat) : string := pretty n.

(** Python [len(set(xs))] for a list of hashable values. *)
Definition py_set_len `{EqDecision A} (xs : list A) : nat :=
  length (remove_dups xs).

(* ------------------------------------------------------------------ *)
(** ** [lib/dwi.py] : [get_pe_indices] *)

Module PeIndices.

Record indices := mk_indices { lr : list string; ap : list string }.

(** The [for idx, ax in enumerate(pe["axe"])] loop; [idx] is the
    enumeration counter. *)
Fixpoint pe_loop (idx : nat) (axe : list string) (ind : indices) : indices :=
  match axe with
  | [] => ind
  | ax :: rest =>
      let idxes := idx + 1 in
      let ind' :=
        if String.eqb ax "i" then mk_indices (ind.(lr) ++ [py_str_int idxes]) ind.(ap)
        else if String.eqb ax "j" then mk_indices ind.(lr) (ind.(ap) ++ [py_str_int idxes])
        else ind in
      pe_loop (S idx) rest ind'
  end.

Definition get_pe_indices (pe_dirs : list string) : result (list string) :=
  axe ← mapM (fun ax => py_str_index ax 0) pe_dirs;
  let dir := map (fun ax => py_str_slice_from ax 1) pe_dirs in
  if decide (1 < py_set_len pe_dirs) then
    let ind := pe_loop 0 axe (mk_indices [] []) in
    Ok (if decide (py_set_len ind.(lr) = 2) then ind.(lr) else ind.(ap))
  else Ok (repeat "1" (length axe)).

(** The grouping policy in the words of the specification (section 4.2):
    the axis letter of a label is its first character; the LR candidates
    are the 1-based positions of the labels on axis [i], the AP candidates
    those on axis [j]. *)
Definition axis_letter (label : string) : string := String.substring 0 1 label.

Fixpoint axis_positions (k : nat) (c : string) (labels : list string) : list nat :=
  match labels with
  | [] => []
  | l :: ls =>
      (if bool_decide (axis_letter l = c) then [k + 1] else [])
        ++ axis_positions (S k) c ls
  end.

Definition all_identical (labels : list string) : bool :=
  bool_decide (Forall (fun x => x = hd "" labels) labels).

Definition pe_indices_spec (labels : list string) : list string :=
  if all_identical labels then repeat "1" (length labels)
  else
    let lr_pos := axis_positions 0 "i" labels in
    if decide (length lr_pos = 2) then map py_str_int lr_pos
    else map py_str_int (axis_positions 0 "j" labels).

End PeIndices.

(* ------------------------------------------------------------------ *)
(** ** [lib/dwi.py] : [get_eddy_indices] *)

Module EddyIndices.

(** [nib.loadsave.load(nii).header.get_data_shape()]. *)
Definition shape := list nat.

(** An element of the list comprehension: the index itself ([idx]) or the
    replicated list ([[idx] * imsize[3]]). *)
Inductive entry : Type :=
  | Scalar (s : string)
  | Row (r : list string).

Definition eddy_entry (idx : string) (imsize : shape) : result entry :=
  if decide (length imsize < 4) then Ok (Scalar idx)
  else match imsize !! 3 with
       | Some f => Ok (Row (repeat idx f))
       | None => Err IndexError
       end.

(** [indices or ["1"] * len(imsizes)]: [None] and [[]] are falsy. *)
Definition indices_or_default (indices : option (list string)) (n : nat) : list string :=
  match indices with
  | Some (i :: is) => i :: is
  | _ => repeat "1" n
  end.

Definition is_scalar (e : entry) : bool :=
  match e with Scalar _ => true | Row _ => false end.

Definition row_of_length (n : nat) (e : entry) : bool :=
  match e with Scalar _ => false | Row r => bool_decide (length r = n) end.

Definition entry_items (e : entry) : list string :=
  match e with Scalar s => [s] | Row r => r end.

(** [np.array(entries).flatten()] (numpy >= 1.24): a list of scalars is a
    1-d array, a list of rows of one common length a 2-d array flattened in
    row-major order; any other nesting has an inhomogeneous shape and
    numpy raises [ValueError]. *)
Definition np_array_flatten (entries : list entry) : result (list string) :=
  match entries with
  | [] => Ok []
  | Scalar _ :: _ =>
      if forallb is_scalar entries then Ok (concat (map entry_items entries))
      else Err (ValueError "inhomogeneous shape")
  | Row r :: _ =>
      if forallb (row_of_length (length r)) entries
      then Ok (concat (map entry_items entries))
      else Err (ValueError "inhomogeneous shape")
  end.

(** The integers written by [np.savetxt] (the output path, a fresh
    hash-tagged scratch name, is left out). *)
Definition get_eddy_indices (imsizes : list shape) (indices : option (list string))
    : result (list string) :=
  eddy_idxes ← mapM (fun '(idx, imsize) => eddy_entry idx imsize)
                 (zip (indices_or_default indices (length imsizes)) imsizes);
  np_array_flatten eddy_idxes.

(** The frame count of a volume in the sense of the specification: one for
    a volume of fewer than four dimensions, the fourth extent otherwise. *)
Definition frame_count (imsize : shape) : nat :=
  if decide (length imsize < 4) then 1 else nth 3 imsize 0.

End EddyIndices.

(* ------------------------------------------------------------------ *)
(** ** [lib/dwi.py] : [get_phenc_info] *)

Module Phenc.

(** [possible_vecs[k]]. *)
Definition possible_vecs (k : string) : result (list Z) :=
  if String.eqb k "i" then Ok [1; 0; 0]%Z
  else if String.eqb k "j" then Ok [0; 1; 0]%Z
  else if String.eqb k "k" then Ok [0; 0; 1]%Z
  else Err (KeyError k).

(** [np.where(p(v))[0]]: the positions where the predicate holds. *)
Definition np_where (p : Z -> bool) (v : list Z) : list nat :=
  filter (fun k => p (nth k v 0%Z)) (seq 0 (length v)).

(** [v[positions] = x]. *)
Definition np_set_at (v : list Z) (positions : list nat) (x : Z) : list Z :=
  foldl (fun w k => <[k := x]> w) v positions.

(** [a[positions]] for an integer index array; out of range raises. *)
Definition np_take (a : list Z) (positions : list nat) : result (list Z) :=
  mapM (fun k => match a !! k with Some x => Ok x | None => Err IndexError end) positions.

Definition py_endswith (s suffix : string) : bool :=
  bool_decide (String.length suffix <= String.length s) &&
  String.eqb (String.substring (String.length s - String.length suffix)
                (String.length suffix) s) suffix.

(** [eff_echo] and [pe_dir] are the values returned by the metadata
    collaborator; [img_size] is the header's data shape. The result is
    [(pe_dir, pe_data)] with [pe_data] the one-row array. *)
Definition get_phenc_info (pe_dir : string) (eff_echo : Q) (img_size : list Z)
    : result (string * list (list Q)) :=
  k ← py_str_index pe_dir 0;
  pe_vec0 ← possible_vecs k;
  let pe_vec :=
    if bool_decide (String.length pe_dir = 2) && py_endswith pe_dir "-"
    then np_set_at pe_vec0 (np_where (fun x => Z.ltb 0 x) pe_vec0) (-1)%Z
    else pe_vec0 in
  num_phase_encodes ← np_take img_size (np_where (fun x => Z.ltb 0 (Z.abs x)) pe_vec);
  let pe_line := (map inject_Z pe_vec
                  ++ map (fun n => Qmult eff_echo (inject_Z n)) num_phase_encodes)%list in
  Ok (pe_dir, [pe_line]).

(** The axis and sign of a label in the words of the specification. *)
Definition label_axis (d : string) : nat :=
  if bool_decide (d ∈ ["i"; "i-"]) then 0
  else if bool_decide (d ∈ ["j"; "j-"]) then 1 else 2.

Definition label_sign (d : string) : Z :=
  if bool_decide (d ∈ ["i-"; "j-"; "k-"]) then (-1)%Z else 1%Z.

End Phenc.

(* ------------------------------------------------------------------ *)
(** ** [lib/dwi.py] : [normalize] *)

Module Normalize.

(** The dtype kind of [np.array(nii.dataobj)]: nibabel returns the stored
    integer array when the NIfTI scaling is trivial, a floating array
    otherwise. Values are kept as rationals in both cases: the arithmetic
    below is exact, where numpy rounds each float64 operation. *)
Inductive dtype : Type := DInt | DFloat.

(** A 4-D array as its frames [arr[..., t]], each flattened. *)
Record ndarray := mk_ndarray { dtype_of : dtype; frames : list (list Q) }.

Record nifti := mk_nifti {
  dataobj : ndarray;
  affine : list (list Q);
  header : list (string * string)
}.

Definition np_mean (xs : list Q) : Q :=
  (foldr Qplus 0 xs / inject_Z (Z.of_nat (length xs)))%Q.

(** [np.isclose(a, 0.0)] with the defaults [rtol=1e-5], [atol=1e-8]. *)
Definition np_isclose0 (a : Q) : bool :=
  Qle_bool (Qabs (a - 0)) ((1 # 100000000) + (1 # 100000) * Qabs 0)%Q.

Definition frame_at (arr : ndarray) (idx : nat) : result (list Q) :=
  match arr.(frames) !! idx with Some f => Ok f | None => Err IndexError end.

(** [arr[..., idx] *= r]: an in-place multiply by a float64 scalar, which
    numpy refuses ([UFuncTypeError], casting rule 'same_kind') on an
    integer array. *)
Definition imul_frame (arr : ndarray) (idx : nat) (r : Q) : result ndarray :=
  match arr.(dtype_of) with
  | DFloat => Ok (mk_ndarray DFloat (alter (map (fun x => Qmult x r)) idx arr.(frames)))
  | DInt => Err UFuncTypeError
  end.

(** The [for idx in range(arr.shape[-1])] loop. *)
Fixpoint normalize_loop (ref_mean : Q) (idxs : list nat) (arr : ndarray) : result ndarray :=
  match idxs with
  | [] => Ok arr
  | idx :: rest =>
      fr ← frame_at arr idx;
      let slice_mean := np_mean fr in
      arr' ← (if negb (np_isclose0 slice_mean)
              then imul_frame arr idx (ref_mean / slice_mean)
              else Ok arr);
      normalize_loop ref_mean rest arr'
  end.

(** The image handed to [nib.loadsave.save] (its scratch path is left
    out). *)
Definition normalize (nii : nifti) : result nifti :=
  let arr := nii.(dataobj) in
  fr0 ← frame_at arr 0;
  let ref_mean := np_mean fr0 in
  arr' ← normalize_loop ref_mean (seq 0 (length arr.(frames))) arr;
  Ok (mk_nifti arr' nii.(affine) nii.(header)).

(** The effect of one loop iteration on a frame [fr], given the reference mean. *)
Definition scaled (ref_mean : Q) (fr : list Q) : list Q :=
  if negb (np_isclose0 (np_mean fr)) then map (fun x => Qmult x (ref_mean / np_mean fr)) fr
  else fr.

End Normalize.

(* ------------------------------------------------------------------ *)
(** ** [lib/dwi.py] : [rotate_bvec] *)

Module Rotate.

(** A 2-d array from [np.loadtxt], as its rows. [np.loadtxt] squeezes a
    file of a single row or a single column to a 1-d array; that shape is
    not represented here, and the statements about [rotate_bvec] assume at
    least two rows and two columns where the shape matters. Entries are
    rationals: the arithmetic is exact, where numpy rounds each float64
    operation. *)
Definition matrix := list (list Q).

(** [t[:3, :3]]. *)
Definition np_slice33 (t : matrix) : matrix := map (take 3) (take 3 t).

(** [m[i, j]], read with a default outside the array (used in statements). *)
Definition entry (m : matrix) (i j : nat) : Q := nth j (nth i m []) 0%Q.

Definition col (b : matrix) (j : nat) : list Q := map (fun row => nth j row 0%Q) b.

Definition dot_vec (a b : list Q) : Q := foldr Qplus 0%Q (zip_with Qmult a b).

(** [np.dot] of two 2-d arrays: the matrix product, or [ValueError] when
    the inner dimensions disagree. *)
Definition np_dot (a b : matrix) : result matrix :=
  let n := match b with [] => 0 | r :: _ => length r end in
  if decide (Forall (fun r => length r = n) b /\ Forall (fun r => length r = length b) a)
  then Ok (map (fun r => map (fun j => dot_vec r (col b j)) (seq 0 n)) a)
  else Err (ValueError "shapes not aligned").

(** The array written by [np.savetxt] (its scratch path is left out). *)
Definition rotate_bvec (bvec transformation_mat : matrix) : result matrix :=
  np_dot (np_slice33 transformation_mat) bvec.

End Rotate.

(* ------------------------------------------------------------------ *)
(** ** Stages: configuration, kernel invocations and the stage monad *)

Module Stage.

(** A value of the flat [cfg] mapping. *)
Inductive cfgval : Type :=
  | VBool (b : bool)
  | VInt (z : Z)
  | VStr (s : string)
  | VPath (p : string)
  | VNone.

(** Python truthiness of a configuration value. *)
Definition py_truthy (v : cfgval) : bool :=
  match v with
  | VBool b => b
  | VInt z => negb (Z.eqb z 0)
  | VStr s => negb (String.eqb s "")
  | VPath _ => true
  | VNone => false
  end.

(** The external kernels called through [niwrap.mrtrix], with the
    arguments the stages pass. *)
Inductive kernel_call : Type :=
  | Dwidenoise (dwi out : string) (estimator : cfgval) (noise : option string)
      (extent : cfgval)
  | Tckgen (source tracks algorithm seed_dynamic : string)
      (step cutoff select_ nthreads : cfgval)
  | Tcksift2 (in_tracks in_fod out_weights : string) (nthreads : cfgval)
  | Tckmap (tracks : string) (tck_weights_in : option string) (template output : string)
      (nthreads : cfgval).

Inductive event : Type :=
  | LogInfo (msg : string)
  | Kernel (call : kernel_call)
  (** A call of [utils.io.save(files=..., out_dir=...)]. *)
  | Save (files : list string) (out_dir : string).

(** The shared mutable state of a run: the [cfg] dict (one object, passed
    by reference to every stage) and the observable events so far. *)
Record st := mk_st { cfg : gmap string cfgval; trace : list event }.

(** A stage: exceptions keep the effects performed before them. *)
Definition M (A : Type) : Type := st -> result A * st.

Global Instance M_ret : MRet M := fun _ a s => (Ok a, s).
Global Instance M_bind : MBind M := fun _ _ f m s =>
  match m s with
  | (Ok a, s') => f a s'
  | (Err e, s') => (Err e, s')
  end.

Definition raise {A} (e : exn) : M A := fun s => (Err e, s).

(** [cfg[key]]. *)
Definition cfg_get (key : string) : M cfgval := fun s =>
  match s.(cfg) !! key with
  | Some v => (Ok v, s)
  | None => (Err (KeyError key), s)
  end.

(** [cfg.get(key)]. *)
Definition cfg_get_opt (key : string) : M cfgval := fun s =>
  (Ok (default VNone (s.(cfg) !! key)), s).

(** [cfg[key] = v]. *)
Definition cfg_set (key : string) (v : cfgval) : M unit := fun s =>
  (Ok tt, mk_st (<[key := v]> s.(cfg)) s.(trace)).

Definition emit (ev : event) : M unit := fun s =>
  (Ok tt, mk_st s.(cfg) (s.(trace) ++ [ev])).

Definition log_info (msg : string) : M unit := emit (LogInfo msg).

(** [p / name] on a [pathlib.Path] held in the configuration. *)
Definition path_div (p : cfgval) (name : string) : M string :=
  match p with
  | VPath d => mret (d +:+ "/" +:+ name)
  | _ => raise (ValueError "unsupported operand for /")
  end.

Record DwidenoiseOutputs := { dn_out : string; dn_noise : option string }.
Record TckgenOutputs := { tck_tracks : string }.
Record Tcksift2Outputs := { sift_out_weights : string }.
Record TckmapOutputs := { tdi_output : string }.

Section Kernels.
(** The results the external kernels return for given arguments, and the
    naming authority [utils.io.bids_name] (both outside this core). *)
Variable dwidenoise_impl : kernel_call -> DwidenoiseOutputs.
Variable tckgen_impl : kernel_call -> TckgenOutputs.
Variable tcksift2_impl : kernel_call -> Tcksift2Outputs.
Variable tckmap_impl : kernel_call -> TckmapOutputs.
Variable bids_name : list (string * cfgval) -> string.

Definition invoke {O} (impl : kernel_call -> O) (c : kernel_call) : M O :=
  emit (Kernel c);; mret (impl c).

(** [workflow/diffusion/preprocess/denoise.py] : [denoise]; [bval] is
    [np.loadtxt(input_data["dwi"]["bval"])], [dwi_nii] is
    [input_data["dwi"]["nii"]]. *)
Definition denoise (entities : list (string * cfgval)) (bval : list Q) (dwi_nii : string)
    : M string :=
  (if decide (length (filter (fun b => negb (Qeq_bool b 0)) bval) < 30)
   then log_info "Less than 30 directions...skipping denoising";;
        cfg_set "participant.preprocess.denoise.skip" (VBool true)
   else mret tt);;
  skip ← cfg_get "participant.preprocess.denoise.skip";
  if py_truthy skip then mret dwi_nii
  else
    log_info "Performing denoising";;
    let bids kws := bids_name ((("datatype", VStr "dwi") :: entities) ++ kws)%list in
    let out := bids [("desc", VStr "denoise"); ("suffix", VStr "dwi"); ("ext", VStr ".nii.gz")] in
    estimator ← cfg_get "participant.preprocess.denoise.estimator";
    noise_map ← cfg_get "participant.preprocess.denoise.map";
    noise ← (if py_truthy noise_map
             then algorithm ← cfg_get "participant.preprocess.denoise.estimator";
                  mret (Some (bids [("algorithm", algorithm); ("param", VStr "noise");
                                    ("suffix", VStr "dwimap"); ("ext", VStr ".nii.gz")]))
             else mret None);
    extent ← cfg_get_opt "participant.preprocess.denoise.extent";
    dn ← invoke dwidenoise_impl (Dwidenoise dwi_nii out estimator noise extent);
    (if py_truthy noise_map
     then match dn.(dn_noise) with
          | None => raise (ValueError "Noise map was not generated")
          | Some n =>
              output_dir ← cfg_get "output_dir";
              out_dir ← path_div output_dir (bids [("directory", VBool true)]);
              emit (Save [n] out_dir)
          end
     else mret tt);;
    mret dn.(dn_out).

(** [workflow/diffusion/tractography.py] : [_tckgen]. *)
Definition tckgen (wm_fod : string) (bids : list (string * cfgval) -> string)
    : M TckgenOutputs :=
  method ← cfg_get "participant.tractography.method";
  match method with
  | VStr m =>
      if String.eqb m "wm" then
        let tracks := bids [("method", VStr "iFOD2"); ("suffix", VStr "tractography");
                            ("ext", VStr ".tck")] in
        step ← cfg_get_opt "participant.tractography.steps";
        cutoff ← cfg_get_opt "participant.tractography.cutoff";
        select_ ← cfg_get_opt "participant.tractography.streamlines";
        nthreads ← cfg_get "opt.threads";
        invoke tckgen_impl (Tckgen wm_fod tracks "iFOD2" wm_fod step cutoff select_ nthreads)
      else if String.eqb m "act" then raise NotImplementedError
      else raise NotImplementedError
  | _ => raise NotImplementedError
  end.

(** The [for meas, weights in zip(...)] loop building the two TDIs. *)
Fixpoint tdi_loop (bids : list (string * cfgval) -> string) (tracks wm_fod : string)
    (ms : list (string * option string)) : M (list (string * TckmapOutputs)) :=
  match ms with
  | [] => mret []
  | (meas, weights) :: rest =>
      nthreads ← cfg_get "opt.threads";
      o ← invoke tckmap_impl
            (Tckmap tracks weights wm_fod
               (bids [("meas", VStr meas); ("suffix", VStr "tdi"); ("ext", VStr ".nii.gz")])
               nthreads);
      os ← tdi_loop bids tracks wm_fod rest;
      mret ((meas, o) :: os)
  end.

(** [generate_tractography]; [wm_fod] is [fod.input_output[0].output]. *)
Definition generate_tractography (input_group : list (string * cfgval)) (wm_fod : string)
    : M unit :=
  log_info "Generating tractography";;
  let bids kws := bids_name ((("datatype", VStr "dwi") :: input_group) ++ kws)%list in
  tck ← tckgen wm_fod bids;
  log_info "Computing per-streamline multipliers";;
  nthreads ← cfg_get "opt.threads";
  sift ← invoke tcksift2_impl
           (Tcksift2 tck.(tck_tracks) wm_fod
              (bids [("method", VStr "SIFT2"); ("suffix", VStr "tckWeights"); ("ext", VStr ".txt")])
              nthreads);
  tdi ← tdi_loop bids tck.(tck_tracks) wm_fod
          [("raw", None); ("weighted", Some sift.(sift_out_weights))];
  weighted ← (match list_to_map (M := gmap string TckmapOutputs) tdi !! "weighted" with
              | Some o => mret o
              | None => raise (KeyError "weighted")
              end);
  output_dir ← cfg_get "output_dir";
  out_dir ← path_div output_dir (bids [("directory", VBool true)]);
  emit (Save [tck.(tck_tracks); sift.(sift_out_weights); weighted.(tdi_output)] out_dir).

End Kernels.

Definition skip_key := "participant.preprocess.denoise.skip".
Definition estimator_key := "participant.preprocess.denoise.estimator".
Definition map_key := "participant.preprocess.denoise.map".

(** The number of non-zero b-values, [bval[bval != 0].size]. *)
Definition nonzero_count (bval : list Q) : nat :=
  length (filter (fun b => negb (Qeq_bool b 0)) bval).

(** Concrete kernels and naming, used to evaluate the stages on examples. *)
Definition sample_dwidenoise (c : kernel_call) : DwidenoiseOutputs :=
  {| dn_out := "/work/denoise/sub-01_desc-denoise_dwi.nii.gz"; dn_noise := None |}.
Definition sample_tckgen (c : kernel_call) : TckgenOutputs :=
  {| tck_tracks := "/work/tckgen/sub-01_method-iFOD2_tractography.tck" |}.
Definition sample_tcksift2 (c : kernel_call) : Tcksift2Outputs :=
  {| sift_out_weights := "/work/sift/sub-01_method-SIFT2_tckWeights.txt" |}.
Definition sample_tckmap (c : kernel_call) : TckmapOutputs :=
  match c with
  | Tckmap _ _ _ out _ => {| tdi_output := "/work/tdi/" +:+ out |}
  | _ => {| tdi_output := "" |}
  end.
Definition sample_bids (kws : list (string * cfgval)) : string := "sub-01_dwi".

End Stage.

(* ------------------------------------------------------------------ *)
(** ** [app/utils.py] : [save] *)

Module Persist.

Local Open Scope list_scope.

(** Python [needle in hay] on strings. *)
Fixpoint py_contains (needle hay : string) : bool :=
  String.prefix needle hay ||
  match hay with
  | EmptyString => false
  | String _ hay' => py_contains needle hay'
  end.

(** A [pathlib.PurePosixPath]: absolute or relative, and its names. *)
Record path := mk_path { is_abs : bool; comps : list string }.

(** [p.parts]: the root "/" first for an absolute path. *)
Definition parts (p : path) : list string :=
  (if is_abs p then ["/"] else []) ++ comps p.

(** [p.joinpath(q)] (also [p / q]): an absolute [q] replaces [p]. *)
Definition joinpath (p q : path) : path :=
  if is_abs q then q else mk_path (is_abs p) (comps p ++ comps q).

(** [Path(x)] for one element of [parts]. *)
Definition path_of_part (x : string) : path :=
  if String.eqb x "/" then mk_path true [] else mk_path false [x].

(** [p.joinpath( *xs)]. *)
Definition joinpath_parts (p : path) (xs : list string) : path :=
  foldl (fun acc x => joinpath acc (path_of_part x)) p xs.

Definition parent (p : path) : path := mk_path (is_abs p) (removelast (comps p)).

Definition basename (p : path) : string := default "" (last (comps p)).

(** The file system: the working directory and a map from absolute
    locations (lists of names) to nodes; the root always exists. *)
Inductive node : Type := File (content : string) | Dir.

#[global] Instance node_eq_dec : EqDecision node.
Proof. solve_decision. Defined.

Record fs := mk_fs { cwd : list string; nodes : gmap (list string) node }.

Definition resolve (f : fs) (p : path) : list string :=
  if is_abs p then comps p else cwd f ++ comps p.

Definition is_dir (f : fs) (a : list string) : bool :=
  match a with
  | [] => true
  | _ => bool_decide (nodes f !! a = Some Dir)
  end.

(** [Path.mkdir(parents=True, exist_ok=True)] on an absolute location,
    creating the missing ancestors from the root down. *)
Fixpoint mkdir_go (pre rest : list string) (n : gmap (list string) node)
    : result (gmap (list string) node) :=
  match rest with
  | [] => Ok n
  | c :: rest' =>
      let a := pre ++ [c] in
      match n !! a with
      | Some Dir => mkdir_go a rest' n
      | Some (File _) => Err (if bool_decide (rest' = []) then FileExistsError
                              else NotADirectoryError)
      | None => mkdir_go a rest' (<[a := Dir]> n)
      end
  end.

Definition mkdir_parents_exist_ok (f : fs) (p : path) : result fs :=
  n ← mkdir_go [] (resolve f p) (nodes f);
  Ok (mk_fs (cwd f) n).

(** [shutil.copy2(src, dst)]: into [dst/basename(src)] when [dst] is a
    directory; [SameFileError] when both name one existing file; the
    source is opened for reading, then the destination for writing, which
    needs its parent directory and replaces any previous content. *)
Definition copy2 (f : fs) (src dst : path) : result fs :=
  let s := resolve f src in
  let d0 := resolve f dst in
  let d := if is_dir f d0 then d0 ++ [basename src] else d0 in
  if bool_decide (s = d /\ is_Some (nodes f !! s)) then Err SameFileError
  else
    match nodes f !! s with
    | None => Err FileNotFoundError
    | Some Dir => Err IsADirectoryError
    | Some (File c) =>
        let pa := removelast d in
        match pa with
        | [] => Ok tt
        | _ => match nodes f !! pa with
               | Some Dir => Ok tt
               | Some (File _) => Err NotADirectoryError
               | None => Err FileNotFoundError
               end
        end ≫= fun _ =>
        match nodes f !! d with
        | Some Dir => Err IsADirectoryError
        | _ => Ok (mk_fs (cwd f) (<[d := File c]> (nodes f)))
        end
    end.

(** The first index whose part satisfies [p] ([enumerate] with [break]). *)
Fixpoint find_index (p : string -> bool) (xs : list string) : option nat :=
  match xs with
  | [] => None
  | x :: xs' => if p x then Some 0 else S <$> find_index p xs'
  end.

(** [save(files, out_dir)] for one path. *)
Definition save_one (f : fs) (file out_dir : path) : result fs :=
  let ps := parts file in
  match find_index (py_contains "sub-") ps with
  | None => Err (ValueError "Unable to find relevant file path components to save file.")
  | Some idx =>
      let out_fpath := joinpath_parts out_dir (drop idx ps) in
      f' ← mkdir_parents_exist_ok f (parent out_fpath);
      copy2 f' file (joinpath out_dir out_fpath)
  end.

(** [files] is one path or a list of paths. *)
Inductive files_arg : Type := Single (p : path) | Many (ps : list path).

Definition save (f : fs) (files : files_arg) (out_dir : path) : result fs :=
  match files with
  | Single p => save_one f p out_dir
  | Many ps => foldl (fun acc p => acc ≫= fun g => save_one g p out_dir) (Ok f) ps
  end.


(** A run directory with one artifact of a kernel call, under the
    working directory [/home/u]. *)
Definition sample_fs : fs :=
  mk_fs ["home"; "u"]
    (list_to_map
       [(["work"], Dir); (["work"; "abc_x"], Dir);
        (["work"; "abc_x"; "sub-01"], Dir);
        (["work"; "abc_x"; "sub-01"; "dwi"], Dir);
        (["work"; "abc_x"; "sub-01"; "dwi"; "file.nii.gz"], File "data");
        (["home"], Dir); (["home"; "u"], Dir)]).

Definition sample_artifact : path :=
  mk_path true ["work"; "abc_x"; "sub-01"; "dwi"; "file.nii.gz"].

(** The same, after an earlier run saved the artifact under [/home/u/out]. *)
Definition sample_fs_saved : fs :=
  mk_fs ["home"; "u"]
    (<[["home"; "u"; "out"; "sub-01"; "dwi"; "file.nii.gz"] := File "data"]>
     (<[["home"; "u"; "out"; "sub-01"; "dwi"] := Dir]>
      (<[["home"; "u"; "out"; "sub-01"] := Dir]>
       (<[["home"; "u"; "out"] := Dir]> (nodes sample_fs))))).

(** The artifact rewritten by a later kernel call. *)
Definition set_content (f : fs) (a : list string) (c : string) : fs :=
  mk_fs (cwd f) (<[a := File c]> (nodes f)).

End Persist.

(* ------------------------------------------------------------------ *)
(** ** [lib/dwi.py] : [concat_dir_phenc_data] *)

Module PhencConcat.

Local Open Scope list_scope.

(** [np.vstack(arrs)] on 2-d arrays given as their (non-empty) lists of
    rows: the rows one after the other, provided every row has the width
    of the first array; an empty list has nothing to concatenate. *)
Definition np_vstack (arrs : list (list (list Q))) : result (list (list Q)) :=
  match arrs with
  | [] => Err (ValueError "need at least one array to concatenate")
  | a :: _ =>
      let n := match a with [] => 0 | r :: _ => length r end in
      if forallb (fun r => bool_decide (length r = n)) (concat arrs)
      then Ok (concat arrs)
      else Err (ValueError "all the input array dimensions except for the concatenation axis must match exactly")
  end.

(** The table written by [np.savetxt] (its fresh scratch path is left out). *)
Definition concat_dir_phenc_data (pe_data : list (list (list Q))) : result (list (list Q)) :=
  np_vstack pe_data.

End PhencConcat.

(* ------------------------------------------------------------------ *)
(** ** [app/utils.py] : [unique_entities], [initialize], [clean_up] *)

Module AppUtils.
Import Persist.

Local Open Scope list_scope.

(** [unique_entities(row)]: a row of the BIDS table as its (label, value)
    pairs, [None] standing for a missing value ([pd.notna] false). The
    dict comprehension keeps the last value of a repeated label. *)
Definition entity_keys : list string := ["sub"; "ses"; "run"].

Definition unique_entities {V : Type} (row : list (string * option V)) : gmap string V :=
  foldl (fun d kv =>
           match kv with
           | (key, Some value) => if bool_decide (key ∈ entity_keys) then <[key := value]> d else d
           | (_, None) => d
           end) ∅ row.

(** A value of the [cfg] mapping read here: [opt.working_dir] is a
    [pathlib.Path] or [None], [opt.runner] a string or [None],
    [opt.containers] a string or [None]. *)
Inductive val : Type :=
  | VNone
  | VStr (s : string)
  | VPath (p : path).

#[global] Instance path_eq_dec : EqDecision path.
Proof. solve_decision. Defined.

#[global] Instance val_eq_dec : EqDecision val.
Proof. solve_decision. Defined.

Definition truthy (v : val) : bool :=
  match v with
  | VNone => false
  | VStr s => negb (String.eqb s "")
  | VPath _ => true
  end.

(** [shutil.rmtree(p)]: the directory and everything below it go. *)
Definition rmtree (f : fs) (p : path) : result fs :=
  let a := resolve f p in
  match a with
  | [] => Err PermissionError
  | _ =>
      match nodes f !! a with
      | None => Err FileNotFoundError
      | Some (File _) => Err NotADirectoryError
      | Some Dir => Ok (mk_fs (cwd f) (filter (fun kv => ~ (a `prefix_of` kv.1)) (nodes f)))
      end
  end.

(** [os.path.exists(p)]. *)
Definition path_exists (f : fs) (p : path) : bool :=
  match resolve f p with
  | [] => true
  | a => bool_decide (is_Some (nodes f !! a))
  end.

(** The styx runners; [Y] is what [yaml.safe_load] returns. *)
Inductive runner (Y : Type) : Type :=
  | DockerRunner (data_dir : val)
  | SingularityRunner (images : Y) (data_dir : val)
  | DefaultRunner (data_dir : val).
Arguments DockerRunner {Y} data_dir.
Arguments SingularityRunner {Y} images data_dir.
Arguments DefaultRunner {Y} data_dir.

(** The loggers [DockerRunner.logger_name], [SingularityRunner.logger_name]
    and [DefaultRunner.logger_name]. *)
Inductive logger : Type := LDocker | LSingularity | LDefault.

Inductive log_event : Type :=
  | Info (l : logger) (msg : string)
  | Warning (l : logger) (msg : string).

(** The state these helpers act on: the file system, the global runner of
    [styxdefs] and the log records. *)
Record app_st (Y : Type) := mk_app_st {
  files : fs;
  global_runner : option (runner Y);
  logs : list log_event
}.
Arguments mk_app_st {Y} files global_runner logs.
Arguments files {Y} _.
Arguments global_runner {Y} _.
Arguments logs {Y} _.

(** Exceptions keep the effects performed before them. *)
Definition AM (Y A : Type) : Type := app_st Y -> result A * app_st Y.

Global Instance AM_ret {Y} : MRet (AM Y) := fun _ a s => (Ok a, s).
Global Instance AM_bind {Y} : MBind (AM Y) := fun _ _ f m s =>
  match m s with
  | (Ok a, s') => f a s'
  | (Err e, s') => (Err e, s')
  end.

Definition am_raise {Y A} (e : exn) : AM Y A := fun s => (Err e, s).

(** [cfg[key]]; these helpers do not write [cfg]. *)
Definition am_cfg_get {Y} (cfg : gmap string val) (key : string) : AM Y val := fun s =>
  match cfg !! key with
  | Some v => (Ok v, s)
  | None => (Err (KeyError key), s)
  end.

(** A file-system operation on the current file system. *)
Definition am_fs {Y} (op : fs -> result fs) : AM Y unit := fun s =>
  match op (files s) with
  | Ok f => (Ok tt, mk_app_st f (global_runner s) (logs s))
  | Err e => (Err e, s)
  end.

Definition am_log {Y} (ev : log_event) : AM Y unit := fun s =>
  (Ok tt, mk_app_st (files s) (global_runner s) (logs s ++ [ev])).

Definition set_global_runner {Y} (r : runner Y) : AM Y unit := fun s =>
  (Ok tt, mk_app_st (files s) (Some r) (logs s)).

(** [v.mkdir(parents=True, exist_ok=True)]: a [str] has no [mkdir]. *)
Definition mkdir_val {Y} (v : val) : AM Y unit :=
  match v with
  | VPath p => am_fs (fun f => mkdir_parents_exist_ok f p)
  | _ => am_raise AttributeError
  end.

(** A [str] given to an [os] function names the same location as its
    [pathlib] path: split at "/", empty and "." names dropped. *)
Fixpoint split_slash (s : string) : list string :=
  match s with
  | EmptyString => [EmptyString]
  | String ch s' =>
      if Ascii.eqb ch "/"%char then EmptyString :: split_slash s'
      else match split_slash s' with
           | x :: xs => String ch x :: xs
           | [] => [String ch EmptyString]
           end
  end.

Definition str_to_path (s : string) : path :=
  mk_path (String.prefix "/" s)
          (filter (fun x => x <> EmptyString /\ x <> ".") (split_slash s)).

(** [shutil.rmtree(v)] for the path held in the configuration; [clean_up]
    calls it on a truthy value only, so never on [None] (whose branch
    here does nothing and is not reached). *)
Definition rmtree_val {Y} (v : val) : AM Y unit :=
  match v with
  | VPath p => am_fs (fun f => rmtree f p)
  | VStr s => am_fs (fun f => rmtree f (str_to_path s))
  | VNone => mret tt
  end.

(** The triple-quoted message: its escaped [\n], then the line breaks
    and indentation of the literal. *)
Definition newline : string := String (Ascii.ascii_of_nat 10) EmptyString.

Definition container_config_msg : string :=
  "Container config not provided ('--container-config')" +:+ newline +:+ newline
  +:+ "            See https://github.com/kaitj/nhp-dwiproc/blob/main/src/nhp_dwiproc/app/resources/containers.yaml"
  +:+ newline +:+ "            for an example.".

Section Runners.
Context {Y : Type}.
(** [open(v, "r")] followed by [yaml.safe_load] (both outside this core). *)
Variable load_containers : fs -> val -> result Y.

Definition initialize (cfg : gmap string val) : AM Y logger :=
  wd ← am_cfg_get cfg "opt.working_dir";
  (if truthy wd then mkdir_val wd else mret tt);;
  runner ← am_cfg_get cfg "opt.runner";
  if bool_decide (runner = VStr "Docker") then
    data_dir ← am_cfg_get cfg "opt.working_dir";
    set_global_runner (DockerRunner data_dir);;
    am_log (Info LDocker "Using Docker runner for processing");;
    mret LDocker
  else if bool_decide (runner ∈ [VStr "Singularity"; VStr "Apptainer"]) then
    containers ← am_cfg_get cfg "opt.containers";
    if negb (truthy containers) then am_raise (ValueError container_config_msg)
    else
      images ← (fun s => match load_containers (files s) containers with
                         | Ok y => (Ok y, s)
                         | Err e => (Err e, s)
                         end);
      data_dir ← am_cfg_get cfg "opt.working_dir";
      set_global_runner (SingularityRunner images data_dir);;
      am_log (Info LSingularity "Using Singularity / Apptainer runner for processing");;
      mret LSingularity
  else
    (** The [DefaultRunner] is built and dropped, not installed. *)
    containers ← am_cfg_get cfg "opt.containers";
    let _ := DefaultRunner (Y := Y) containers in
    mret LDefault.

End Runners.

Definition clean_up {Y} (cfg : gmap string val) (lg : logger) : AM Y unit :=
  wd ← am_cfg_get cfg "opt.working_dir";
  if truthy wd then rmtree_val wd
  else
    fun s =>
      if path_exists (files s) (mk_path false ["styx_tmp"])
      then am_fs (fun f => rmtree f (mk_path false ["styx_tmp"])) s
      else am_log (Warning lg "Did not clean up working directory") s.

End AppUtils.

(* ================================================================== *)
(** * Proofs *)

Open Scope list_scope.

(** ** Generic facts about the Python helpers *)

Lemma remove_dups_NoDup_id `{EqDecision A} (l : list A) :
  NoDup l -> remove_dups l = l.
Proof.
  induction l as [|x l IH]; intros Hnd; [done|].
  apply NoDup_cons in Hnd as [Hx Hnd]. simpl.
  destruct (decide_rel _ x l); [done|]. by rewrite IH.
Qed.

Lemma NoDup_all_eq_length `{EqDecision A} (r : list A) (h : A) :
  NoDup r -> (forall x, x ∈ r -> x = h) -> length r <= 1.
Proof.
  destruct r as [|a [|b r]]; simpl; intros Hnd Hall; try lia.
  exfalso. apply NoDup_cons in Hnd as [Ha _].
  apply Ha. rewrite (Hall a), (Hall b) by set_solver. set_solver.
Qed.

Lemma two_distinct_length {A} (r : list A) (x y : A) :
  x ∈ r -> y ∈ r -> x <> y -> 2 <= length r.
Proof.
  destruct r as [|a [|b r]]; simpl; intros Hx Hy Hxy; try lia.
  - by apply elem_of_nil in Hx.
  - apply list_elem_of_singleton in Hx, Hy. congruence.
Qed.

Lemma py_set_len_NoDup `{EqDecision A} (l : list A) :
  NoDup l -> py_set_len l = length l.
Proof. intros. unfold py_set_len. by rewrite remove_dups_NoDup_id. Qed.

Lemma NoDup_map_py_str_int (l : list nat) :
  NoDup l -> NoDup (map py_str_int l).
Proof.
  induction l as [|x l IH]; simpl; intros Hnd; [constructor|].
  apply NoDup_cons in Hnd as [Hx Hnd]. constructor; [|by apply IH].
  intros Hin. apply list_elem_of_In, in_map_iff in Hin as (y & Hy & Hiny).
  unfold py_str_int in Hy. apply (inj pretty) in Hy. subst.
  by apply Hx, list_elem_of_In.
Qed.

(** ** [get_pe_indices] *)

Module PeIndicesProofs.
Import PeIndices.

Lemma mapM_first_char (labels : list string) :
  Forall (fun s => s <> "") labels ->
  mapM (fun ax => py_str_index ax 0) labels = Ok (map axis_letter labels).
Proof.
  induction labels as [|l ls IH]; intros Hne; [done|].
  apply Forall_cons in Hne as [Hl Hls].
  destruct l as [|c s]; [done|]. simpl. rewrite IH; [|done]. by destruct s.
Qed.

Lemma pe_loop_positions (labels : list string) (idx : nat) (ind : indices) :
  pe_loop idx (map axis_letter labels) ind =
  mk_indices (ind.(lr) ++ map py_str_int (axis_positions idx "i" labels))
             (ind.(ap) ++ map py_str_int (axis_positions idx "j" labels)).
Proof.
  revert idx ind. induction labels as [|l ls IH]; intros idx [lr0 ap0]; simpl.
  - by rewrite !app_nil_r.
  - rewrite IH. simpl.
    destruct (String.eqb_spec (axis_letter l) "i") as [Hi|Hi].
    + rewrite Hi. simpl. by rewrite <- !app_assoc.
    + rewrite (bool_decide_eq_false_2 (axis_letter l = "i")) by done. simpl.
      destruct (String.eqb_spec (axis_letter l) "j") as [Hj|Hj].
      * rewrite Hj. simpl. by rewrite <- !app_assoc.
      * by rewrite (bool_decide_eq_false_2 (axis_letter l = "j")) by done.
Qed.

Lemma axis_positions_gt (labels : list string) (k : nat) (c : string) (p : nat) :
  p ∈ axis_positions k c labels -> k < p.
Proof.
  revert k. induction labels as [|l ls IH]; intros k Hp; simpl in Hp.
  - by apply elem_of_nil in Hp.
  - apply elem_of_app in Hp as [Hp|Hp].
    + case_bool_decide; [|by apply elem_of_nil in Hp].
      apply list_elem_of_singleton in Hp. lia.
    + apply IH in Hp. lia.
Qed.

Lemma axis_positions_NoDup (labels : list string) (k : nat) (c : string) :
  NoDup (axis_positions k c labels).
Proof.
  revert k. induction labels as [|l ls IH]; intros k; simpl; [constructor|].
  case_bool_decide; simpl; [|apply IH].
  constructor; [|apply IH].
  intros Hin. apply axis_positions_gt in Hin. lia.
Qed.

Lemma py_set_len_positions (labels : list string) (k : nat) (c : string) :
  py_set_len (map py_str_int (axis_positions k c labels)) =
  length (axis_positions k c labels).
Proof.
  rewrite py_set_len_NoDup by (apply NoDup_map_py_str_int, axis_positions_NoDup).
  apply length_map.
Qed.

Lemma py_set_len_gt1_iff (labels : list string) :
  1 < py_set_len labels <-> all_identical labels = false.
Proof.
  unfold all_identical, py_set_len. split.
  - intros Hlt. apply bool_decide_eq_false_2. intros Hall.
    assert (length (remove_dups labels) <= 1); [|lia].
    apply (NoDup_all_eq_length _ (hd "" labels)); [apply NoDup_remove_dups|].
    intros x Hx. rewrite elem_of_remove_dups in Hx.
    rewrite Forall_forall in Hall. by apply Hall.
  - intros Hf. apply bool_decide_eq_false_1 in Hf.
    destruct labels as [|h t]; [by destruct Hf|]. simpl in Hf.
    apply not_Forall_Exists in Hf; [|apply _].
    apply Exists_exists in Hf as (x & Hx & Hneq).
    assert (2 <= length (remove_dups (h :: t))); [|lia].
    apply (two_distinct_length _ h x); [| |done];
      apply elem_of_remove_dups; set_solver.
Qed.

(** C1: the grouping of the code is the policy of the specification, on
    every list of (non-empty) direction labels; in particular on the three
    documented inputs. *)
Theorem get_pe_indices_policy (labels : list string) :
  Forall (fun s => s <> "") labels ->
  get_pe_indices labels = Ok (pe_indices_spec labels) /\
  get_pe_indices ["i"; "i-"] = Ok ["1"; "2"] /\
  get_pe_indices ["j"; "j-"] = Ok ["1"; "2"] /\
  get_pe_indices ["i"; "i-"; "j"] = Ok ["1"; "2"].
Proof.
  intros Hne. split; [|done].
  unfold get_pe_indices, pe_indices_spec.
  rewrite mapM_first_char by done. simpl.
  rewrite length_map, pe_loop_positions. simpl.
  destruct (decide (1 < py_set_len labels)) as [Hlt|Hge].
  - apply py_set_len_gt1_iff in Hlt. rewrite Hlt.
    rewrite py_set_len_positions. done.
  - destruct (all_identical labels) eqn:Ha; [done|].
    exfalso. apply Hge, py_set_len_gt1_iff, Ha.
Qed.

Lemma get_pe_indices_policy_witness :
  Forall (fun s => s <> "") ["i"; "i-"; "j"; "j-"] /\
  get_pe_indices ["i"; "i-"; "j"; "j-"] = Ok (pe_indices_spec ["i"; "i-"; "j"; "j-"]).
Proof.
  assert (H : Forall (fun s => s <> "") ["i"; "i-"; "j"; "j-"])
    by (repeat constructor; discriminate).
  split; [exact H|]. apply (get_pe_indices_policy _ H).
Defined.

End PeIndicesProofs.

(** ** [get_eddy_indices] *)

Module EddyIndicesProofs.
Import EddyIndices.

Lemma mapM_eddy_rows (F : nat) (imsizes : list shape) (idxs : list string) :
  Forall (fun s => 4 <= length s /\ nth 3 s 0 = F) imsizes ->
  length idxs = length imsizes ->
  mapM (fun '(idx, imsize) => eddy_entry idx imsize) (zip idxs imsizes)
  = Ok (map (fun idx => Row (repeat idx F)) idxs).
Proof.
  revert idxs. induction imsizes as [|s ss IH]; intros idxs Hall Hlen.
  - destruct idxs; [done|simpl in Hlen; lia].
  - destruct idxs as [|i is]; [simpl in Hlen; lia|].
    apply Forall_cons in Hall as [[Hs HF] Hss]. simpl in Hlen.
    simpl. unfold eddy_entry. rewrite decide_False by lia.
    destruct s as [|a [|b [|c [|f s]]]]; simpl in Hs; try lia.
    simpl in HF. subst f. simpl. rewrite IH by (done || lia). done.
Qed.

Lemma forallb_row_of_length (F : nat) (idxs : list string) :
  forallb (row_of_length F) (map (fun idx => Row (repeat idx F)) idxs) = true.
Proof.
  induction idxs as [|i is IH]; [done|]. simpl. rewrite IH, repeat_length.
  by rewrite bool_decide_eq_true_2.
Qed.

Lemma length_concat_rows (F : nat) (idxs : list string) :
  length (concat (map entry_items (map (fun idx => Row (repeat idx F)) idxs)))
  = F * length idxs.
Proof.
  induction idxs as [|i is IH]; simpl; [lia|].
  rewrite length_app, IH, repeat_length. lia.
Qed.

Lemma sum_frame_count_uniform (F : nat) (imsizes : list shape) :
  Forall (fun s => 4 <= length s /\ nth 3 s 0 = F) imsizes ->
  sum_list (map frame_count imsizes) = F * length imsizes.
Proof.
  induction imsizes as [|s ss IH]; intros Hall; simpl; [lia|].
  apply Forall_cons in Hall as [[Hs HF] Hss].
  unfold frame_count at 1. rewrite decide_False by lia. rewrite IH by done. lia.
Qed.

(** When every volume is 4-D with one common frame count and there is one
    index per volume, the table has one entry per frame. *)
Lemma get_eddy_indices_uniform (F : nat) (imsizes : list shape)
    (indices : option (list string)) :
  Forall (fun s => 4 <= length s /\ nth 3 s 0 = F) imsizes ->
  length (indices_or_default indices (length imsizes)) = length imsizes ->
  exists out, get_eddy_indices imsizes indices = Ok out /\
              length out = sum_list (map frame_count imsizes).
Proof.
  intros Hall Hlen. unfold get_eddy_indices.
  remember (indices_or_default indices (length imsizes)) as idxs eqn:Hi.
  rewrite (mapM_eddy_rows F) by done. simpl.
  rewrite (sum_frame_count_uniform F) by done. rewrite <- Hlen.
  destruct idxs as [|i is].
  - by exists [].
  - simpl. rewrite repeat_length, bool_decide_eq_true_2 by done. simpl.
    rewrite forallb_row_of_length. simpl.
    eexists; split; [done|]. rewrite length_app, repeat_length.
    rewrite (length_concat_rows F is). lia.
Qed.

(** C2: two 4-D acquisitions with 3 and 5 frames and indices ["1"; "2"]:
    the specification asks for 8 entries, but the comprehension produces
    rows of different lengths, on which [np.array] raises. *)
Theorem get_eddy_indices_ragged_fails :
  get_eddy_indices [[2; 2; 2; 3]; [2; 2; 2; 5]] (Some ["1"; "2"])
    = Err (ValueError "inhomogeneous shape") /\
  sum_list (map frame_count [[2; 2; 2; 3]; [2; 2; 2; 5]]) = 8.
Proof. split; reflexivity. Qed.

End EddyIndicesProofs.

(** ** [get_phenc_info] *)

Module PhencProofs.
Import Phenc.

(** C3: for each of the six direction labels the encoding row is a unit
    vector on the labelled axis, negative exactly for a trailing "-", and
    its fourth entry is the effective echo spacing times the number of
    voxels along that axis. *)
Theorem get_phenc_info_unit_row (d : string) (eff_echo : Q) (img_size : list Z) :
  d ∈ ["i"; "j"; "k"; "i-"; "j-"; "k-"] ->
  3 <= length img_size ->
  exists v : list Z,
    get_phenc_info d eff_echo img_size =
      Ok (d, [(map inject_Z v
               ++ [Qmult eff_echo (inject_Z (nth (label_axis d) img_size 0%Z))])%list]) /\
    length v = 3 /\
    (forall k, k < 3 ->
       nth k v 0%Z = if decide (k = label_axis d) then label_sign d else 0%Z) /\
    (label_sign d = (-1)%Z <-> py_endswith d "-" = true).
Proof.
  intros Hd Hlen.
  destruct img_size as [|a [|b [|c rest]]]; simpl in Hlen; try lia.
  apply list_elem_of_In in Hd. simpl in Hd.
  repeat destruct Hd as [<-|Hd]; try contradiction;
    (eexists; split; [reflexivity|]; split; [reflexivity|]; split;
     [intros k Hk; destruct k as [|[|[|k]]]; [reflexivity..|lia]
     |compute; split; congruence]).
Qed.

Lemma get_phenc_info_unit_row_witness :
  ("j-" ∈ ["i"; "j"; "k"; "i-"; "j-"; "k-"] /\ 3 <= length [96; 128; 60; 71]%Z) /\
  exists v : list Z,
    get_phenc_info "j-" (1#2) [96; 128; 60; 71]%Z =
      Ok ("j-", [(map inject_Z v
               ++ [Qmult (1#2) (inject_Z (nth (label_axis "j-") [96; 128; 60; 71]%Z 0%Z))])%list]) /\
    length v = 3 /\
    (forall k, k < 3 ->
       nth k v 0%Z = if decide (k = label_axis "j-") then label_sign "j-" else 0%Z) /\
    (label_sign "j-" = (-1)%Z <-> py_endswith "j-" "-" = true).
Proof.
  assert (H1 : "j-" ∈ ["i"; "j"; "k"; "i-"; "j-"; "k-"]) by (apply list_elem_of_In; simpl; tauto).
  assert (H2 : 3 <= length [96; 128; 60; 71]%Z) by (simpl; lia).
  split; [split; assumption|]. exact (get_phenc_info_unit_row _ _ _ H1 H2).
Defined.

End PhencProofs.

(** ** [rotate_bvec] *)

Module RotateProofs.
Import Rotate.

Lemma nth_map_seq {A} (f : nat -> A) (n j : nat) (d : A) :
  j < n -> nth j (map f (seq 0 n)) d = f j.
Proof.
  intros Hj. rewrite (nth_indep _ d (f 0)) by (rewrite length_map, length_seq; lia).
  rewrite map_nth, seq_nth by lia. done.
Qed.

(** C6: the rotated table is, entry by entry, the product of the upper-left
    3x3 block with the b-vector columns, with no rescaling; hence a zero
    column stays zero and the identity block leaves the table unchanged. *)
Theorem rotate_bvec_linear (T B : matrix) (n : nat) :
  3 <= length T -> Forall (fun r => 3 <= length r) T ->
  length B = 3 -> Forall (fun r => length r = n) B ->
  exists R, rotate_bvec B T = Ok R /\ length R = 3 /\ Forall (fun r => length r = n) R /\
    (forall i j : nat, i < 3 -> j < n ->
       (entry R i j == entry T i 0 * entry B 0 j + entry T i 1 * entry B 1 j
                       + entry T i 2 * entry B 2 j)%Q) /\
    (forall j : nat, j < n -> (forall k : nat, k < 3 -> (entry B k j == 0)%Q) ->
       forall i : nat, i < 3 -> (entry R i j == 0)%Q) /\
    ((forall i k : nat, i < 3 -> k < 3 ->
        (entry T i k == if decide (i = k) then 1 else 0)%Q) ->
       forall i j : nat, i < 3 -> j < n -> (entry R i j == entry B i j)%Q).
Proof.
  intros HT HTr HB HBr.
  destruct T as [|r0 [|r1 [|r2 Trest]]]; simpl in HT; try lia.
  destruct B as [|b0 [|b1 [|b2 [|b3 Brest]]]]; simpl in HB; try lia.
  apply Forall_cons in HTr as [H0 HTr]. apply Forall_cons in HTr as [H1 HTr].
  apply Forall_cons in HTr as [H2 _].
  destruct r0 as [|a00 [|a01 [|a02 r0]]]; simpl in H0; try lia.
  destruct r1 as [|a10 [|a11 [|a12 r1]]]; simpl in H1; try lia.
  destruct r2 as [|a20 [|a21 [|a22 r2]]]; simpl in H2; try lia.
  pose proof HBr as HBr'.
  apply Forall_cons in HBr' as [Hb0 _].
  unfold rotate_bvec, np_dot, np_slice33. simpl. rewrite Hb0.
  rewrite decide_True by (split; [done|repeat constructor]).
  assert (Hprod : forall i j : nat, i < 3 -> j < n ->
    (entry (map (fun r => map (fun j => dot_vec r (col [b0; b1; b2] j)) (seq 0 n))
              [[a00; a01; a02]; [a10; a11; a12]; [a20; a21; a22]]) i j ==
     entry ((a00 :: a01 :: a02 :: r0) :: (a10 :: a11 :: a12 :: r1)
              :: (a20 :: a21 :: a22 :: r2) :: Trest) i 0 * entry [b0; b1; b2] 0 j
     + entry ((a00 :: a01 :: a02 :: r0) :: (a10 :: a11 :: a12 :: r1)
              :: (a20 :: a21 :: a22 :: r2) :: Trest) i 1 * entry [b0; b1; b2] 1 j
     + entry ((a00 :: a01 :: a02 :: r0) :: (a10 :: a11 :: a12 :: r1)
              :: (a20 :: a21 :: a22 :: r2) :: Trest) i 2 * entry [b0; b1; b2] 2 j)%Q).
  { intros i j Hi Hj. unfold entry.
    destruct i as [|[|[|i]]]; try lia; simpl; rewrite nth_map_seq by done;
      unfold dot_vec, col; simpl; ring. }
  eexists. split; [reflexivity|]. split; [done|]. split.
  { repeat constructor; by rewrite length_map, length_seq. }
  split; [exact Hprod|]. split.
  - intros j Hj Hz i Hi. rewrite Hprod by done.
    rewrite (Hz 0), (Hz 1), (Hz 2) by lia. ring.
  - intros Hid i j Hi Hj. rewrite Hprod by done.
    rewrite (Hid i 0), (Hid i 1), (Hid i 2) by lia.
    destruct i as [|[|[|i]]]; try lia; simpl; ring.
Qed.

Lemma rotate_bvec_linear_witness :
  (3 <= length [[0; -1; 0; 5]; [1; 0; 0; 6]; [0; 0; 1; 7]; [0; 0; 0; 1]]%Q /\
   Forall (fun r => 3 <= length r) [[0; -1; 0; 5]; [1; 0; 0; 6]; [0; 0; 1; 7]; [0; 0; 0; 1]]%Q /\
   length [[1; 0]; [0; 0]; [0; 0]]%Q = 3 /\
   Forall (fun r => length r = 2) [[1; 0]; [0; 0]; [0; 0]]%Q) /\
  exists R, rotate_bvec [[1; 0]; [0; 0]; [0; 0]]%Q
              [[0; -1; 0; 5]; [1; 0; 0; 6]; [0; 0; 1; 7]; [0; 0; 0; 1]]%Q = Ok R /\
            length R = 3.
Proof.
  assert (H1 : 3 <= length [[0; -1; 0; 5]; [1; 0; 0; 6]; [0; 0; 1; 7]; [0; 0; 0; 1]]%Q)
    by (simpl; lia).
  assert (H2 : Forall (fun r => 3 <= length r)
                 [[0; -1; 0; 5]; [1; 0; 0; 6]; [0; 0; 1; 7]; [0; 0; 0; 1]]%Q)
    by (repeat constructor; simpl; lia).
  assert (H3 : length [[1; 0]; [0; 0]; [0; 0]]%Q = 3) by reflexivity.
  assert (H4 : Forall (fun r => length r = 2) [[1; 0]; [0; 0]; [0; 0]]%Q)
    by (repeat constructor).
  split; [tauto|].
  destruct (rotate_bvec_linear _ _ 2 H1 H2 H3 H4) as (R & HR & HlR & _).
  exists R. split; assumption.
Defined.

End RotateProofs.

(** ** [normalize] *)

Module NormalizeProofs.
Import Normalize.


Lemma normalize_loop_float (ref_mean : Q) (m k : nat) (fs : list (list Q)) :
  k + m <= length fs ->
  exists fs', normalize_loop ref_mean (seq k m) (mk_ndarray DFloat fs)
                = Ok (mk_ndarray DFloat fs') /\
    forall t, fs' !! t = if decide (k <= t < k + m) then scaled ref_mean <$> fs !! t
                         else fs !! t.
Proof.
  revert k fs. induction m as [|m IH]; intros k fs Hlen.
  - exists fs. split; [done|]. intros t. by rewrite decide_False by lia.
  - destruct (lookup_lt_is_Some_2 fs k) as [fr Hfr]; [lia|].
    set (fs1 := <[k := scaled ref_mean fr]> fs).
    assert (Hstep : (if negb (np_isclose0 (np_mean fr))
                     then imul_frame (mk_ndarray DFloat fs) k (ref_mean / np_mean fr)
                     else Ok (mk_ndarray DFloat fs)) = Ok (mk_ndarray DFloat fs1)).
    { unfold fs1, scaled. destruct (negb (np_isclose0 (np_mean fr))).
      - unfold imul_frame. simpl. f_equal. f_equal. apply list_eq. intros t.
        destruct (decide (t = k)) as [->|Hne].
        + by rewrite list_lookup_alter_eq, list_lookup_insert_eq, Hfr by lia.
        + by rewrite list_lookup_alter_ne, list_lookup_insert_ne by done.
      - by rewrite list_insert_id. }
    assert (Hlen1 : length fs1 = length fs) by apply length_insert.
    destruct (IH (S k) fs1) as (fs' & Hrun & Hlk); [lia|].
    exists fs'. split.
    + simpl. unfold frame_at. simpl. rewrite Hfr. simpl.
      rewrite Hstep. exact Hrun.
    + intros t. rewrite Hlk. unfold fs1.
      destruct (decide (t = k)) as [->|Hne].
      * rewrite decide_False by lia. rewrite decide_True by lia.
        by rewrite list_lookup_insert_eq, Hfr by lia.
      * rewrite list_lookup_insert_ne by done.
        destruct (decide (S k <= t < S k + m)), (decide (k <= t < k + S m)); try done; lia.
Qed.

Lemma np_mean_scale (xs : list Q) (r : Q) :
  (np_mean (map (fun x => Qmult x r) xs) == np_mean xs * r)%Q.
Proof.
  unfold np_mean. rewrite length_map.
  assert (Hs : (foldr Qplus 0 (map (fun x => Qmult x r) xs) == foldr Qplus 0 xs * r)%Q).
  { induction xs as [|x xs IH]; simpl; [ring|]. rewrite IH. ring. }
  rewrite Hs. unfold Qdiv. ring.
Qed.

Lemma np_isclose0_false_neq (a : Q) : np_isclose0 a = false -> ~ (a == 0)%Q.
Proof.
  unfold np_isclose0. intros Hc Ha. rewrite Ha in Hc. discriminate.
Qed.

(** On a floating array with at least one frame the code does what the
    specification describes: header and affine are kept, frame 0 is
    unchanged up to [==], a frame of near-zero mean is unchanged and any
    other frame is scaled by [ref_mean / frame_mean], bringing its mean to
    the reference mean in exact arithmetic. *)
Lemma normalize_float_spec (fs : list (list Q)) (aff : list (list Q))
    (hdr : list (string * string)) (fr0 : list Q) :
  fs !! 0 = Some fr0 ->
  exists fs', normalize (mk_nifti (mk_ndarray DFloat fs) aff hdr)
                = Ok (mk_nifti (mk_ndarray DFloat fs') aff hdr) /\
    length fs' = length fs /\
    (exists fr0', fs' !! 0 = Some fr0' /\ Forall2 Qeq fr0' fr0) /\
    (forall t fr, fs !! t = Some fr -> np_isclose0 (np_mean fr) = true ->
                  fs' !! t = Some fr) /\
    (forall t fr, fs !! t = Some fr -> np_isclose0 (np_mean fr) = false ->
       exists fr', fs' !! t = Some fr' /\
         fr' = map (fun x => Qmult x (np_mean fr0 / np_mean fr)) fr /\
         (np_mean fr' == np_mean fr0)%Q).
Proof.
  intros H0.
  destruct (normalize_loop_float (np_mean fr0) (length fs) 0 fs) as (fs' & Hrun & Hlk);
    [lia|].
  assert (Hfs' : fs' = scaled (np_mean fr0) <$> fs).
  { apply list_eq. intros t. rewrite list_lookup_fmap, Hlk.
    destruct (decide (0 <= t < 0 + length fs)); [done|].
    rewrite lookup_ge_None_2 by lia. done. }
  subst fs'. exists (scaled (np_mean fr0) <$> fs).
  split; [|split; [|split; [|split]]].
  - unfold normalize, frame_at. simpl. rewrite H0. simpl. rewrite Hrun. done.
  - apply length_fmap.
  - exists (scaled (np_mean fr0) fr0). rewrite list_lookup_fmap, H0. split; [done|].
    unfold scaled. destruct (np_isclose0 (np_mean fr0)) eqn:Hc; simpl.
    + apply Forall2_same_length_lookup. split; [done|]. intros i x y Hx Hy.
      rewrite Hx in Hy. injection Hy as ->. reflexivity.
    + apply np_isclose0_false_neq in Hc.
      apply Forall2_same_length_lookup. split; [by rewrite length_map|].
      intros i x y Hx Hy. rewrite list_lookup_fmap, Hy in Hx. simpl in Hx.
      injection Hx as <-. field_simplify; [reflexivity|exact Hc].
  - intros t fr Ht Hc. rewrite list_lookup_fmap, Ht. simpl.
    unfold scaled. by rewrite Hc.
  - intros t fr Ht Hc. rewrite list_lookup_fmap, Ht. simpl.
    eexists. split; [reflexivity|]. unfold scaled. rewrite Hc. simpl.
    split; [done|]. rewrite np_mean_scale.
    apply np_isclose0_false_neq in Hc. field. exact Hc.
Qed.

(** C5: an integer-typed volume (frames of means 2 and 4): the
    specification has frame 0 kept and frame 1 halved, but the in-place
    multiply of frame 0 by the float ratio already raises. *)
Theorem normalize_int_volume_fails :
  normalize (mk_nifti (mk_ndarray DInt [[2; 2]; [4; 4]]%Q) [] [])
    = Err UFuncTypeError.
Proof. reflexivity. Qed.

End NormalizeProofs.

Module StageProofs.
Import Stage.


Ltac mstep :=
  cbv [mbind mret M_bind M_ret log_info emit cfg_set cfg_get cfg_get_opt
       invoke raise path_div]; simpl.

Lemma denoise_few (impl : kernel_call -> DwidenoiseOutputs) bids entities
    (bval : list Q) (dwi_nii : string) (s : st) :
  nonzero_count bval < 30 ->
  denoise impl bids entities bval dwi_nii s =
  (Ok dwi_nii, mk_st (<[skip_key := VBool true]> s.(cfg))
                     (s.(trace) ++ [LogInfo "Less than 30 directions...skipping denoising"])).
Proof.
  intros Hlt. unfold denoise. rewrite decide_True by done.
  mstep. rewrite lookup_insert_eq. reflexivity.
Qed.

Lemma denoise_skip_flag (impl : kernel_call -> DwidenoiseOutputs) bids entities
    (bval : list Q) (dwi_nii : string) (s : st) (v : cfgval) :
  30 <= nonzero_count bval ->
  s.(cfg) !! skip_key = Some v -> py_truthy v = true ->
  denoise impl bids entities bval dwi_nii s = (Ok dwi_nii, s).
Proof.
  intros Hge Hv Ht. unfold denoise. rewrite decide_False by (unfold nonzero_count in Hge; lia).
  mstep. unfold skip_key in Hv. rewrite Hv. simpl. rewrite Ht. by destruct s.
Qed.

(** One run past the gate, event by event. *)
Lemma denoise_run_exact (impl : kernel_call -> DwidenoiseOutputs) bids_name entities
    (bval : list Q) (dwi_nii : string) (s : st) (v est mp : cfgval) :
  30 <= nonzero_count bval ->
  s.(cfg) !! skip_key = Some v -> py_truthy v = false ->
  s.(cfg) !! estimator_key = Some est -> s.(cfg) !! map_key = Some mp ->
  let bids kws := bids_name ((("datatype", VStr "dwi") :: entities) ++ kws) in
  let noise := if py_truthy mp
               then Some (bids [("algorithm", est); ("param", VStr "noise");
                                ("suffix", VStr "dwimap"); ("ext", VStr ".nii.gz")])
               else None in
  let c := Dwidenoise dwi_nii
             (bids [("desc", VStr "denoise"); ("suffix", VStr "dwi"); ("ext", VStr ".nii.gz")])
             est noise (default VNone (s.(cfg) !! "participant.preprocess.denoise.extent")) in
  let tr := s.(trace) ++ [LogInfo "Performing denoising"; Kernel c] in
  if py_truthy mp then
    match dn_noise (impl c) with
    | None => denoise impl bids_name entities bval dwi_nii s
              = (Err (ValueError "Noise map was not generated"), mk_st s.(cfg) tr)
    | Some n =>
        match s.(cfg) !! "output_dir" with
        | Some (VPath d) =>
            denoise impl bids_name entities bval dwi_nii s
            = (Ok (dn_out (impl c)),
               mk_st s.(cfg) (tr ++ [Save [n] (d +:+ "/" +:+ bids [("directory", VBool true)])]))
        | None => denoise impl bids_name entities bval dwi_nii s
                  = (Err (KeyError "output_dir"), mk_st s.(cfg) tr)
        | Some _ => True
        end
    end
  else denoise impl bids_name entities bval dwi_nii s = (Ok (dn_out (impl c)), mk_st s.(cfg) tr).
Proof.
  intros Hge Hv Hf He Hm. cbv zeta.
  unfold skip_key, estimator_key, map_key in *.
  destruct (py_truthy mp) eqn:Hmp.
  - destruct (dn_noise _) as [n|] eqn:Hn.
    + destruct (cfg s !! "output_dir") as [[| | |d|]|] eqn:Ho; try exact I.
      * unfold denoise. rewrite decide_False by (unfold nonzero_count in Hge; lia).
        mstep. rewrite Hv. simpl. rewrite Hf. mstep. rewrite He. simpl. rewrite Hm. simpl.
        rewrite Hmp. mstep. rewrite He. simpl. simpl in Hn. rewrite Hn. mstep. rewrite Ho. simpl.
        rewrite <- !app_assoc. reflexivity.
      * unfold denoise. rewrite decide_False by (unfold nonzero_count in Hge; lia).
        mstep. rewrite Hv. simpl. rewrite Hf. mstep. rewrite He. simpl. rewrite Hm. simpl.
        rewrite Hmp. mstep. rewrite He. simpl. simpl in Hn. rewrite Hn. mstep. rewrite Ho. simpl.
        rewrite <- !app_assoc. reflexivity.
    + unfold denoise. rewrite decide_False by (unfold nonzero_count in Hge; lia).
      mstep. rewrite Hv. simpl. rewrite Hf. mstep. rewrite He. simpl. rewrite Hm. simpl.
      rewrite Hmp. mstep. rewrite He. simpl. simpl in Hn. rewrite Hn. mstep.
      rewrite <- !app_assoc. reflexivity.
  - unfold denoise. rewrite decide_False by (unfold nonzero_count in Hge; lia).
    mstep. rewrite Hv. simpl. rewrite Hf. mstep. rewrite He. simpl. rewrite Hm. simpl.
    rewrite Hmp. mstep.
    rewrite <- !app_assoc. reflexivity.
Qed.







(** *** The configuration is only read, except by the denoise gate *)

Definition cfg_pure {A} (m : M A) : Prop := forall s, (m s).2.(cfg) = s.(cfg).

Lemma cfg_pure_ret {A} (a : A) : cfg_pure (mret a).
Proof. done. Qed.

Lemma cfg_pure_bind {A B} (m : M A) (f : A -> M B) :
  cfg_pure m -> (forall a, cfg_pure (f a)) -> cfg_pure (m ≫= f).
Proof.
  intros Hm Hf s. cbv [mbind M_bind]. specialize (Hm s).
  destruct (m s) as [[a|e] s'] eqn:E; simpl in *; [|done].
  by rewrite Hf.
Qed.

Lemma cfg_pure_get (k : string) : cfg_pure (cfg_get k).
Proof. intros s. unfold cfg_get. by destruct (cfg s !! k). Qed.

Lemma cfg_pure_get_opt (k : string) : cfg_pure (cfg_get_opt k).
Proof. done. Qed.

Lemma cfg_pure_emit (ev : event) : cfg_pure (emit ev).
Proof. done. Qed.

Lemma cfg_pure_raise {A} (e : exn) : cfg_pure (raise (A := A) e).
Proof. done. Qed.

Lemma cfg_pure_path_div (p : cfgval) (n : string) : cfg_pure (path_div p n).
Proof. by destruct p. Qed.

Lemma cfg_pure_invoke {O} (impl : kernel_call -> O) (c : kernel_call) :
  cfg_pure (invoke impl c).
Proof. intros s. done. Qed.

Lemma cfg_pure_log_info (msg : string) : cfg_pure (log_info msg).
Proof. done. Qed.

Create HintDb cfg_pure.
Global Hint Resolve cfg_pure_ret cfg_pure_get cfg_pure_get_opt cfg_pure_emit
  cfg_pure_raise cfg_pure_path_div cfg_pure_invoke cfg_pure_log_info : cfg_pure.

Ltac cfg_pure_tac :=
  repeat (first [ apply cfg_pure_bind; [|intros ?]
                | progress (auto with cfg_pure)
                | case_match ]).

Lemma cfg_pure_tdi_loop bids tckmap_impl (tracks wm_fod : string)
    (ms : list (string * option string)) :
  cfg_pure (tdi_loop tckmap_impl bids tracks wm_fod ms).
Proof.
  induction ms as [|[meas w] ms IH]; simpl; cfg_pure_tac.
Qed.

Lemma cfg_pure_tckgen tckgen_impl (wm_fod : string) bids :
  cfg_pure (tckgen tckgen_impl wm_fod bids).
Proof. unfold tckgen. cfg_pure_tac. Qed.

Global Hint Resolve cfg_pure_tdi_loop cfg_pure_tckgen : cfg_pure.






(** *** Tractography dispatch *)

(** An action only appends to the trace. *)
Definition trace_ext {A} (m : M A) : Prop :=
  forall s, exists l, (m s).2.(trace) = s.(trace) ++ l.

Lemma trace_ext_ret {A} (a : A) : trace_ext (mret a).
Proof. intros s. exists []. by rewrite app_nil_r. Qed.

Lemma trace_ext_bind {A B} (m : M A) (f : A -> M B) :
  trace_ext m -> (forall a, trace_ext (f a)) -> trace_ext (m ≫= f).
Proof.
  intros Hm Hf s. cbv [mbind M_bind]. destruct (Hm s) as [l1 H1].
  destruct (m s) as [[a|e] s'] eqn:E; simpl in *.
  - destruct (Hf a s') as [l2 H2]. exists (l1 ++ l2). by rewrite H2, H1, app_assoc.
  - by exists l1.
Qed.

Lemma trace_ext_get (k : string) : trace_ext (cfg_get k).
Proof. intros s. exists []. unfold cfg_get. rewrite app_nil_r. by destruct (cfg s !! k). Qed.

Lemma trace_ext_get_opt (k : string) : trace_ext (cfg_get_opt k).
Proof. intros s. exists []. by rewrite app_nil_r. Qed.

Lemma trace_ext_emit (ev : event) : trace_ext (emit ev).
Proof. intros s. by exists [ev]. Qed.

Lemma trace_ext_log_info (msg : string) : trace_ext (log_info msg).
Proof. apply trace_ext_emit. Qed.

Lemma trace_ext_raise {A} (e : exn) : trace_ext (raise (A := A) e).
Proof. intros s. exists []. by rewrite app_nil_r. Qed.

Lemma trace_ext_path_div (p : cfgval) (n : string) : trace_ext (path_div p n).
Proof. destruct p; (apply trace_ext_ret || apply trace_ext_raise). Qed.

Lemma trace_ext_invoke {O} (impl : kernel_call -> O) (c : kernel_call) :
  trace_ext (invoke impl c).
Proof. intros s. by exists [Kernel c]. Qed.

Create HintDb trace_ext.
Global Hint Resolve trace_ext_ret trace_ext_get trace_ext_get_opt trace_ext_emit
  trace_ext_log_info trace_ext_raise trace_ext_path_div trace_ext_invoke : trace_ext.

Ltac trace_ext_tac :=
  repeat (first [ apply trace_ext_bind; [|intros ?]
                | progress (auto with trace_ext)
                | case_match ]).

Lemma trace_ext_tdi_loop tckmap_impl bids (tracks wm_fod : string)
    (ms : list (string * option string)) :
  trace_ext (tdi_loop tckmap_impl bids tracks wm_fod ms).
Proof. induction ms as [|[meas w] ms IH]; simpl; trace_ext_tac. Qed.

Global Hint Resolve trace_ext_tdi_loop : trace_ext.

Definition method_key := "participant.tractography.method".

Lemma bind_ok_step {A B} (m : M A) (f : A -> M B) (s : st) (a : A) (s' : st) :
  m s = (Ok a, s') -> (m ≫= f) s = f a s'.
Proof. intros H. cbv [mbind M_bind]. by rewrite H. Qed.

Lemma bind_ok_trace {A B} (m : M A) (f : A -> M B) (s : st) (a : A) (s' : st) :
  m s = (Ok a, s') -> trace_ext (f a) ->
  exists l, ((m ≫= f) s).2.(trace) = s'.(trace) ++ l.
Proof. intros H Hf. rewrite (bind_ok_step _ _ _ _ _ H). apply Hf. Qed.

Lemma tckgen_wm tckgen_impl (wm_fod : string) bids (s : st) :
  s.(cfg) !! method_key = Some (VStr "wm") -> is_Some (s.(cfg) !! "opt.threads") ->
  exists c,
    tckgen tckgen_impl wm_fod bids s
      = (Ok (tckgen_impl c), mk_st s.(cfg) (s.(trace) ++ [Kernel c])) /\
    exists tracks step cutoff select_ nthreads,
      c = Tckgen wm_fod tracks "iFOD2" wm_fod step cutoff select_ nthreads.
Proof.
  unfold method_key. intros Hm [nt Hnt]. unfold tckgen.
  mstep. rewrite Hm. simpl. rewrite Hnt. simpl.
  eexists. split; [reflexivity|]. do 5 eexists. reflexivity.
Qed.

(** C8: a configured method other than "wm" (notably "act") makes the
    stage raise [NotImplementedError] (the specification's
    UnsupportedMethodError) with no kernel invoked: the trace holds only
    the opening log line; with "wm" the first kernel invoked is the
    streamline generator. *)
Theorem tractography_dispatch tckgen_impl tcksift2_impl tckmap_impl bids_name
    input_group (wm_fod : string) (s : st) :
  (forall m : string, s.(cfg) !! method_key = Some (VStr m) -> m <> "wm" ->
   generate_tractography tckgen_impl tcksift2_impl tckmap_impl bids_name input_group wm_fod s
   = (Err NotImplementedError,
      mk_st s.(cfg) (s.(trace) ++ [LogInfo "Generating tractography"]))) /\
  (s.(cfg) !! method_key = Some (VStr "wm") -> is_Some (s.(cfg) !! "opt.threads") ->
   exists c rest,
     (generate_tractography tckgen_impl tcksift2_impl tckmap_impl bids_name input_group
        wm_fod s).2.(trace)
       = s.(trace) ++ [LogInfo "Generating tractography"; Kernel c] ++ rest /\
     exists tracks step cutoff select_ nthreads,
       c = Tckgen wm_fod tracks "iFOD2" wm_fod step cutoff select_ nthreads).
Proof.
  unfold method_key. split.
  - intros m Hm Hne. unfold generate_tractography, tckgen.
    mstep. rewrite Hm. simpl.
    destruct (String.eqb_spec m "wm") as [->|_]; [done|].
    by destruct (String.eqb m "act").
  - intros Hm Hnt.
    destruct (tckgen_wm tckgen_impl wm_fod
                (fun kws => bids_name ((("datatype", VStr "dwi") :: input_group) ++ kws)%list)
                (mk_st s.(cfg) (s.(trace) ++ [LogInfo "Generating tractography"])) Hm Hnt)
      as (c & Hrun & Hc).
    unfold generate_tractography.
    rewrite (bind_ok_step _ _ s tt (mk_st s.(cfg) (s.(trace) ++ [LogInfo "Generating tractography"])))
      by reflexivity.
    cbv beta zeta.
    match goal with
    | |- context [mbind ?f ?m ?s0] =>
        destruct (bind_ok_trace m f s0 _ _ Hrun) as [l Hl]; [trace_ext_tac|]
    end.
    exists c, l. split.
    + rewrite Hl. simpl. by rewrite <- !app_assoc.
    + exact Hc.
Qed.

Lemma tractography_dispatch_witness :
  (list_to_map [(method_key, VStr "act"); ("opt.threads", VInt 4)] : gmap string cfgval)
    !! method_key = Some (VStr "act") /\ "act" <> "wm" /\
  generate_tractography sample_tckgen sample_tcksift2 sample_tckmap sample_bids
    [("sub", VStr "01")] "/work/fod/sub-01_wm_fod.mif"
    (mk_st (list_to_map [(method_key, VStr "act"); ("opt.threads", VInt 4)]) [])
  = (Err NotImplementedError,
     mk_st (list_to_map [(method_key, VStr "act"); ("opt.threads", VInt 4)])
       ([] ++ [LogInfo "Generating tractography"])).
Proof.
  assert (H1 : (list_to_map [(method_key, VStr "act"); ("opt.threads", VInt 4)]
                 : gmap string cfgval) !! method_key = Some (VStr "act")) by reflexivity.
  assert (H2 : "act" <> "wm") by discriminate.
  split; [exact H1|]. split; [exact H2|].
  exact (proj1 (tractography_dispatch sample_tckgen sample_tcksift2 sample_tckmap sample_bids
           [("sub", VStr "01")] "/work/fod/sub-01_wm_fod.mif"
           (mk_st (list_to_map [(method_key, VStr "act"); ("opt.threads", VInt 4)]) []))
           "act" H1 H2).
Defined.

End StageProofs.

(* ------------------------------------------------------------------ *)
Module PersistProofs.
Import Persist.

Lemma joinpath_parts_rel (p : path) (xs : list string) :
  Forall (fun x => x <> "/") xs ->
  joinpath_parts p xs = mk_path (is_abs p) (comps p ++ xs).
Proof.
  unfold joinpath_parts. revert p.
  induction xs as [|x xs IH]; intros p Hxs; simpl.
  - destruct p; simpl. by rewrite app_nil_r.
  - inversion Hxs as [|? ? Hx Hxs']; subst.
    unfold path_of_part. apply String.eqb_neq in Hx. rewrite Hx.
    rewrite IH by exact Hxs'. simpl. by rewrite <- app_assoc.
Qed.

Lemma drop_parts_no_root (file : path) (idx : nat) :
  Forall (fun x => x <> "/") (comps file) ->
  find_index (py_contains "sub-") (parts file) = Some idx ->
  Forall (fun x => x <> "/") (drop idx (parts file)).
Proof.
  intros Hc Hf. unfold parts in *. destruct (is_abs file).
  - change (find_index (py_contains "sub-") ("/" :: comps file) = Some idx) in Hf.
    simpl in Hf.
    destruct idx as [|j].
    + destruct (find_index _ _); simpl in Hf; discriminate.
    + simpl. by apply Forall_drop.
  - simpl. by apply Forall_drop.
Qed.

(** Where [save] writes one artifact: the parent of [out_dir] joined with
    the parts from the first "sub-" one is created, and the copy goes to
    [out_dir] joined once more with that path: the same location for an
    absolute [out_dir], the root's names twice for a relative one. *)
Lemma save_one_dest (f : fs) (file out_dir : path) (idx : nat) :
  Forall (fun x => x <> "/") (comps file) ->
  find_index (py_contains "sub-") (parts file) = Some idx ->
  save_one f file out_dir =
    (f' ← mkdir_parents_exist_ok f
            (mk_path (is_abs out_dir) (removelast (comps out_dir ++ drop idx (parts file))));
     copy2 f' file
       (mk_path (is_abs out_dir)
          ((if is_abs out_dir then [] else comps out_dir) ++ comps out_dir
           ++ drop idx (parts file)))).
Proof.
  intros Hc Hf. unfold save_one. rewrite Hf.
  rewrite joinpath_parts_rel by (by apply drop_parts_no_root).
  unfold parent, joinpath. simpl.
  destruct (is_abs out_dir) eqn:Ha; simpl; reflexivity.
Qed.

(** Without a part containing "sub-", [save_one] raises before any
    directory or file is written. *)
Lemma save_one_no_sub (f : fs) (file out_dir : path) :
  find_index (py_contains "sub-") (parts file) = None ->
  save_one f file out_dir
    = Err (ValueError "Unable to find relevant file path components to save file.").
Proof. intros H. unfold save_one. by rewrite H. Qed.

(** A successful [copy2] stores the source's content at its destination
    and changes nothing else. *)
Lemma copy2_writes (f f' : fs) (src dst : path) :
  copy2 f src dst = Ok f' ->
  exists c,
    nodes f !! resolve f src = Some (File c) /\
    f' = mk_fs (cwd f)
           (<[(if is_dir f (resolve f dst) then resolve f dst ++ [basename src]
               else resolve f dst) := File c]> (nodes f)).
Proof.
  unfold copy2. intros H.
  case_bool_decide; [discriminate|].
  destruct (nodes f !! resolve f src) as [[c|]|] eqn:Hs; try discriminate.
  exists c. split; [reflexivity|].
  set (d := if is_dir f (resolve f dst) then _ else _) in *.
  destruct (removelast d) as [|x l] eqn:Hp; simpl in H.
  - destruct (nodes f !! d) as [[]|]; simpl in H; congruence.
  - destruct (nodes f !! (x :: l)) as [[]|]; simpl in H; try discriminate.
    destruct (nodes f !! d) as [[]|]; simpl in H; congruence.
Qed.

(** Saving a list is saving its elements in order, from the state the
    previous one left; the first failure ends it. *)
Lemma save_many_cons (f : fs) (p : path) (ps : list path) (out_dir : path) :
  save f (Many (p :: ps)) out_dir =
    (g ← save_one f p out_dir; save g (Many ps) out_dir).
Proof.
  unfold save. simpl.
  destruct (save_one f p out_dir) as [g|e]; simpl; [reflexivity|].
  clear. induction ps as [|q ps IH]; simpl; [reflexivity|]. exact IH.
Qed.

(** C7: the artifact [/work/abc_x/sub-01/dwi/file.nii.gz] saved under the
    output root [out] (relative, working directory [/home/u]) is not
    persisted at [out/sub-01/dwi/file.nii.gz]: [save] raises
    [FileNotFoundError], as the copy targets [out/out/sub-01/dwi/...];
    under the absolute root [/home/u/out] it is stored there. *)
Theorem save_relative_root_fails :
  save sample_fs (Single sample_artifact) (mk_path false ["out"])
    = Err FileNotFoundError /\
  exists f',
    save sample_fs (Single sample_artifact) (mk_path true ["home"; "u"; "out"])
      = Ok f' /\
    nodes f' !! ["home"; "u"; "out"; "sub-01"; "dwi"; "file.nii.gz"] = Some (File "data").
Proof.
  split; [vm_compute; reflexivity|].
  eexists. split; [vm_compute; reflexivity|]. vm_compute. reflexivity.
Qed.

(** C10: re-running [save] for an artifact already persisted under the
    relative root [out] raises [FileNotFoundError] (for a single path and
    for a list holding it); under the absolute root [/home/u/out] the rerun
    succeeds and leaves the artifact's latest content there. *)
Theorem save_rerun_relative_root_fails :
  save sample_fs_saved (Single sample_artifact) (mk_path false ["out"])
    = Err FileNotFoundError /\
  save sample_fs_saved (Many [sample_artifact; sample_artifact]) (mk_path false ["out"])
    = Err FileNotFoundError /\
  exists f',
    save (set_content sample_fs_saved (comps sample_artifact) "data2")
      (Single sample_artifact) (mk_path true ["home"; "u"; "out"]) = Ok f' /\
    nodes f' !! ["home"; "u"; "out"; "sub-01"; "dwi"; "file.nii.gz"] = Some (File "data2").
Proof.
  split; [vm_compute; reflexivity|].
  split; [vm_compute; reflexivity|].
  eexists. split; [vm_compute; reflexivity|]. vm_compute. reflexivity.
Qed.

End PersistProofs.

(* ================================================================== *)
(** * Further properties of the code *)

(** ** [get_pe_indices] *)

Module PeIndicesMore.
Import PeIndices PeIndicesProofs.

Lemma mapM_first_char_empty (labels : list string) :
  "" ∈ labels -> mapM (fun ax => py_str_index ax 0) labels = Err IndexError.
Proof.
  induction labels as [|l ls IH]; intros Hin; [by apply elem_of_nil in Hin|].
  apply elem_of_cons in Hin as [<-|Hin]; [reflexivity|].
  destruct l as [|c s]; [reflexivity|]. simpl. by rewrite IH.
Qed.

Lemma axis_positions_none (labels : list string) (k : nat) (c : string) :
  Forall (fun d => axis_letter d <> c) labels -> axis_positions k c labels = [].
Proof.
  revert k. induction labels as [|l ls IH]; intros k Hall; [done|].
  apply Forall_cons in Hall as [Hl Hls]. simpl.
  rewrite bool_decide_eq_false_2 by done. simpl. by apply IH.
Qed.

(** An empty direction label makes [get_pe_indices] raise [IndexError]
    (from [ax[0]]), wherever it stands in the list. *)
Theorem get_pe_indices_empty_label (pe_dirs : list string) :
  "" ∈ pe_dirs -> get_pe_indices pe_dirs = Err IndexError.
Proof.
  intros Hin. unfold get_pe_indices. by rewrite mapM_first_char_empty.
Qed.

Lemma get_pe_indices_empty_label_witness :
  "" ∈ ["i"; ""; "j-"] /\ get_pe_indices ["i"; ""; "j-"] = Err IndexError.
Proof.
  split; [set_solver|]. apply get_pe_indices_empty_label. set_solver.
Defined.

(** When the labels differ but none lies on the [i] or [j] axis (e.g.
    ["k"; "k-"]), the index list is empty; [get_eddy_indices] then treats
    it like a missing list and writes "1" for every volume. *)
Theorem get_pe_indices_no_ij (pe_dirs : list string) :
  Forall (fun d => d <> "" /\ axis_letter d <> "i" /\ axis_letter d <> "j") pe_dirs ->
  1 < py_set_len pe_dirs ->
  get_pe_indices pe_dirs = Ok [] /\
  (forall imsizes, EddyIndices.get_eddy_indices imsizes (Some [])
                   = EddyIndices.get_eddy_indices imsizes None).
Proof.
  intros Hall Hgt. split; [|reflexivity].
  unfold get_pe_indices.
  rewrite mapM_first_char by (eapply Forall_impl; [exact Hall|]; naive_solver).
  simpl. rewrite decide_True by done.
  rewrite pe_loop_positions. simpl.
  rewrite !axis_positions_none by (eapply Forall_impl; [exact Hall|]; naive_solver).
  reflexivity.
Qed.

Lemma get_pe_indices_no_ij_witness :
  (Forall (fun d => d <> "" /\ axis_letter d <> "i" /\ axis_letter d <> "j") ["k"; "k-"] /\
   1 < py_set_len ["k"; "k-"]) /\
  get_pe_indices ["k"; "k-"] = Ok [].
Proof.
  assert (H : Forall (fun d => d <> "" /\ axis_letter d <> "i" /\ axis_letter d <> "j")
                ["k"; "k-"]).
  { repeat constructor; discriminate. }
  assert (H1 : 1 < py_set_len ["k"; "k-"]) by (vm_compute; lia).
  split; [split; assumption|].
  exact (proj1 (get_pe_indices_no_ij ["k"; "k-"] H H1)).
Defined.

End PeIndicesMore.

(** ** [get_eddy_indices] *)

Module EddyIndicesMore.
Import EddyIndices.

(** The entry the comprehension builds for one volume; it never fails. *)
Lemma eddy_entry_ok (idx : string) (imsize : shape) :
  eddy_entry idx imsize
    = Ok (if decide (length imsize < 4) then Scalar idx
          else Row (repeat idx (nth 3 imsize 0))).
Proof.
  unfold eddy_entry. destruct (decide (length imsize < 4)); [done|].
  destruct imsize as [|a [|b [|c [|f s]]]]; simpl in *; try lia. done.
Qed.

Lemma mapM_eddy_entries (idxs : list string) (imsizes : list shape) :
  mapM (fun '(idx, imsize) => eddy_entry idx imsize) (zip idxs imsizes)
    = Ok (zip_with (fun idx imsize =>
                      if decide (length imsize < 4) then Scalar idx
                      else Row (repeat idx (nth 3 imsize 0))) idxs imsizes).
Proof.
  revert imsizes. induction idxs as [|i is IH]; intros [|s ss]; try reflexivity.
  simpl. rewrite eddy_entry_ok, IH. reflexivity.
Qed.

Lemma np_array_flatten_scalars (l : list string) :
  np_array_flatten (map Scalar l) = Ok l.
Proof.
  destruct l as [|x l]; [done|]. simpl.
  assert (Hf : forallb is_scalar (map Scalar l) = true).
  { induction l; simpl; auto. }
  rewrite Hf. f_equal. f_equal. induction l as [|y l IH]; simpl; [done|]. by rewrite IH.
Qed.

Lemma np_array_flatten_rows (F : nat) (l : list string) :
  np_array_flatten (map (fun i => Row (repeat i F)) l) = Ok (concat (map (fun i => repeat i F) l)).
Proof.
  destruct l as [|x l]; [done|]. simpl. rewrite repeat_length.
  rewrite bool_decide_eq_true_2 by done. simpl.
  assert (Hf : forallb (row_of_length F) (map (fun i => Row (repeat i F)) l) = true).
  { induction l as [|y l IH]; simpl; [done|]. rewrite IH, repeat_length.
    by rewrite bool_decide_eq_true_2. }
  rewrite Hf. simpl. rewrite map_map. reflexivity.
Qed.

Lemma np_array_flatten_mixed (es : list entry) (x : string) (r : list string) :
  Scalar x ∈ es -> Row r ∈ es -> np_array_flatten es = Err (ValueError "inhomogeneous shape").
Proof.
  intros Hs Hr. destruct es as [|[y|r0] es]; [by apply elem_of_nil in Hs| |]; simpl.
  - destruct (forallb is_scalar es) eqn:Hf; [|done].
    rewrite forallb_forall in Hf.
    apply elem_of_cons in Hr as [Hr|Hr]; [discriminate|].
    specialize (Hf _ (proj1 (list_elem_of_In _ _) Hr)). discriminate.
  - rewrite bool_decide_eq_true_2 by done. simpl.
    destruct (forallb (row_of_length (length r0)) es) eqn:Hf; [|done].
    rewrite forallb_forall in Hf.
    apply elem_of_cons in Hs as [Hs|Hs]; [discriminate|].
    specialize (Hf _ (proj1 (list_elem_of_In _ _) Hs)). discriminate.
Qed.

Lemma zip_with_scalar (idxs : list string) (imsizes : list shape) :
  Forall (fun s => length s < 4) imsizes ->
  zip_with (fun idx imsize =>
              if decide (length imsize < 4) then Scalar idx
              else Row (repeat idx (nth 3 imsize 0))) idxs imsizes
  = map Scalar (take (length imsizes) idxs).
Proof.
  revert idxs. induction imsizes as [|s ss IH]; intros [|i is] Hall; try reflexivity.
  apply Forall_cons in Hall as [Hs Hss]. simpl.
  rewrite decide_True by done. by rewrite IH.
Qed.

Lemma zip_with_row (F : nat) (idxs : list string) (imsizes : list shape) :
  Forall (fun s => 4 <= length s /\ nth 3 s 0 = F) imsizes ->
  zip_with (fun idx imsize =>
              if decide (length imsize < 4) then Scalar idx
              else Row (repeat idx (nth 3 imsize 0))) idxs imsizes
  = map (fun i => Row (repeat i F)) (take (length imsizes) idxs).
Proof.
  revert idxs. induction imsizes as [|s ss IH]; intros [|i is] Hall; try reflexivity.
  apply Forall_cons in Hall as [[Hs HF] Hss]. simpl.
  rewrite decide_False by lia. rewrite HF. by rewrite IH.
Qed.

(** With only 3-D volumes the table is the given indices (one per volume,
    or "1" for each when the list is missing or empty), cut to the number
    of volumes: [zip] drops surplus indices, and the volumes beyond the
    given indices get no entry at all. *)
Theorem get_eddy_indices_3d (imsizes : list shape) (indices : option (list string)) :
  Forall (fun s => length s < 4) imsizes ->
  get_eddy_indices imsizes indices
    = Ok (take (length imsizes) (indices_or_default indices (length imsizes))).
Proof.
  intros Hall. unfold get_eddy_indices. rewrite mapM_eddy_entries. simpl.
  rewrite zip_with_scalar by done. apply np_array_flatten_scalars.
Qed.

Lemma get_eddy_indices_3d_witness :
  Forall (fun s => length s < 4) [[2; 2; 2]; [2; 2; 2]; [2; 2]] /\
  get_eddy_indices [[2; 2; 2]; [2; 2; 2]; [2; 2]] (Some ["1"; "2"]) = Ok ["1"; "2"].
Proof.
  assert (H : Forall (fun s => length s < 4) [[2; 2; 2]; [2; 2; 2]; [2; 2]])
    by (repeat constructor; simpl; lia).
  split; [exact H|]. exact (get_eddy_indices_3d _ (Some ["1"; "2"]) H).
Defined.

(** With only 4-D volumes of one common frame count [F], each given index
    is repeated [F] times, volume after volume (again cut to the shorter of
    the two lists). *)
Theorem get_eddy_indices_4d (F : nat) (imsizes : list shape) (indices : option (list string)) :
  Forall (fun s => 4 <= length s /\ nth 3 s 0 = F) imsizes ->
  get_eddy_indices imsizes indices
    = Ok (concat (map (fun i => repeat i F)
                      (take (length imsizes) (indices_or_default indices (length imsizes))))).
Proof.
  intros Hall. unfold get_eddy_indices. rewrite mapM_eddy_entries. simpl.
  rewrite (zip_with_row F) by done. apply np_array_flatten_rows.
Qed.

Lemma get_eddy_indices_4d_witness :
  Forall (fun s => 4 <= length s /\ nth 3 s 0 = 2) [[2; 2; 2; 2]; [4; 4; 4; 2]] /\
  get_eddy_indices [[2; 2; 2; 2]; [4; 4; 4; 2]] (Some ["1"; "2"]) = Ok ["1"; "1"; "2"; "2"].
Proof.
  assert (H : Forall (fun s => 4 <= length s /\ nth 3 s 0 = 2) [[2; 2; 2; 2]; [4; 4; 4; 2]])
    by (repeat constructor; simpl; lia).
  split; [exact H|]. exact (get_eddy_indices_4d 2 _ (Some ["1"; "2"]) H).
Defined.

(** A 3-D volume together with a 4-D one (each paired with an index) makes
    [get_eddy_indices] raise [ValueError]: the comprehension mixes a bare
    index with a list of indices, which [np.array] refuses. *)
Theorem get_eddy_indices_mixed_fails (imsizes : list shape) (indices : option (list string))
    (a b : shape) :
  length imsizes <= length (indices_or_default indices (length imsizes)) ->
  a ∈ imsizes -> b ∈ imsizes -> length a < 4 -> 4 <= length b ->
  get_eddy_indices imsizes indices = Err (ValueError "inhomogeneous shape").
Proof.
  intros Hlen Ha Hb Ha4 Hb4. unfold get_eddy_indices. rewrite mapM_eddy_entries. simpl.
  set (idxs := indices_or_default indices (length imsizes)) in *.
  apply list_elem_of_lookup in Ha as [i Hi]. apply list_elem_of_lookup in Hb as [j Hj].
  assert (Hi' : i < length idxs) by (apply lookup_lt_Some in Hi; lia).
  assert (Hj' : j < length idxs) by (apply lookup_lt_Some in Hj; lia).
  apply lookup_lt_is_Some in Hi' as [x Hx], Hj' as [y Hy].
  eapply (np_array_flatten_mixed _ x (repeat y (nth 3 b 0))).
  - apply list_elem_of_lookup. exists i. apply lookup_zip_with_Some.
    exists x, a. by rewrite decide_True.
  - apply list_elem_of_lookup. exists j. apply lookup_zip_with_Some.
    exists y, b. by rewrite decide_False by lia.
Qed.

Lemma get_eddy_indices_mixed_fails_witness :
  (length [[2; 2; 2]; [2; 2; 2; 3]]
     <= length (indices_or_default None (length [[2; 2; 2]; [2; 2; 2; 3]])) /\
   [2; 2; 2] ∈ [[2; 2; 2]; [2; 2; 2; 3]] /\ [2; 2; 2; 3] ∈ [[2; 2; 2]; [2; 2; 2; 3]] /\
   length [2; 2; 2] < 4 /\ 4 <= length [2; 2; 2; 3]) /\
  get_eddy_indices [[2; 2; 2]; [2; 2; 2; 3]] None = Err (ValueError "inhomogeneous shape").
Proof.
  assert (H1 : length [[2; 2; 2]; [2; 2; 2; 3]]
                 <= length (indices_or_default None (length [[2; 2; 2]; [2; 2; 2; 3]])))
    by (simpl; lia).
  assert (H2 : [2; 2; 2] ∈ [[2; 2; 2]; [2; 2; 2; 3]]) by set_solver.
  assert (H3 : [2; 2; 2; 3] ∈ [[2; 2; 2]; [2; 2; 2; 3]]) by set_solver.
  assert (H4 : length [2; 2; 2] < 4) by (simpl; lia).
  assert (H5 : 4 <= length [2; 2; 2; 3]) by (simpl; lia).
  split; [repeat split; assumption|].
  exact (get_eddy_indices_mixed_fails _ None _ _ H1 H2 H3 H4 H5).
Defined.

End EddyIndicesMore.

(** ** [get_phenc_info] and [concat_dir_phenc_data] *)

Module PhencMore.
Import Phenc PhencConcat.

(** A label that is empty raises [IndexError] ([pe_dir[0]]); a label whose
    first character is not [i], [j] or [k] raises [KeyError] on
    [possible_vecs]. *)
Theorem get_phenc_info_bad_label (eff_echo : Q) (img_size : list Z) :
  get_phenc_info "" eff_echo img_size = Err IndexError /\
  (forall (c : Ascii.ascii) (rest : string),
     c <> "i"%char -> c <> "j"%char -> c <> "k"%char ->
     get_phenc_info (String c rest) eff_echo img_size = Err (KeyError (String c ""))).
Proof.
  split; [reflexivity|].
  intros c rest Hi Hj Hk. unfold get_phenc_info, py_str_index. simpl.
  unfold possible_vecs.
  destruct (String.eqb_spec (String c "") "i") as [H|_]; [congruence|].
  destruct (String.eqb_spec (String c "") "j") as [H|_]; [congruence|].
  destruct (String.eqb_spec (String c "") "k") as [H|_]; [congruence|].
  reflexivity.
Qed.

Lemma get_phenc_info_bad_label_witness :
  ("x"%char <> "i"%char /\ "x"%char <> "j"%char /\ "x"%char <> "k"%char) /\
  get_phenc_info "x-" (1 # 2) [96; 128; 60]%Z = Err (KeyError "x").
Proof.
  assert (Hi : "x"%char <> "i"%char) by discriminate.
  assert (Hj : "x"%char <> "j"%char) by discriminate.
  assert (Hk : "x"%char <> "k"%char) by discriminate.
  split; [repeat split; assumption|].
  exact (proj2 (get_phenc_info_bad_label (1 # 2) [96; 128; 60]%Z) "x"%char "-" Hi Hj Hk).
Defined.

(** For any label starting with [i], [j] or [k] (on axis [k] = 0, 1, 2),
    the row is the unit vector of that axis, negated exactly when the
    label has two characters and ends with "-" (so "i--" or "j+" count as
    positive), followed by the echo spacing times the extent of the image
    along the axis; an image shape without that axis raises [IndexError]. *)
Theorem get_phenc_info_row (c : Ascii.ascii) (rest : string) (k : nat) (eff_echo : Q)
    (img_size : list Z) :
  (String c "", k) ∈ [("i", 0); ("j", 1); ("k", 2)] ->
  (k < length img_size ->
   get_phenc_info (String c rest) eff_echo img_size =
     Ok (String c rest,
         [map inject_Z
            (<[k := if bool_decide (String.length (String c rest) = 2)
                       && py_endswith (String c rest) "-" then (-1)%Z else 1%Z]>
               [0; 0; 0]%Z)
          ++ [Qmult eff_echo (inject_Z (nth k img_size 0%Z))]])) /\
  (length img_size <= k -> get_phenc_info (String c rest) eff_echo img_size = Err IndexError).
Proof.
  intros Hin.
  assert (Hc : (c = "i"%char /\ k = 0) \/ (c = "j"%char /\ k = 1) \/ (c = "k"%char /\ k = 2)).
  { apply list_elem_of_In in Hin. simpl in Hin.
    destruct Hin as [H|[H|[H|[]]]]; injection H as -> ->; auto. }
  unfold get_phenc_info, py_str_index. simpl String.get. cbv [mbind result_bind].
  destruct Hc as [[-> ->]|[[-> ->]|[-> ->]]]; cbn [possible_vecs String.eqb Ascii.eqb Bool.eqb andb];
    destruct (bool_decide _ && py_endswith _ _);
    (split; intros Hlen;
     [destruct img_size as [|x0 [|x1 [|x2 img']]]; simpl in Hlen; try lia; reflexivity
     |destruct img_size as [|x0 [|x1 [|x2 img']]]; simpl in Hlen; try lia; reflexivity]).
Qed.

Lemma get_phenc_info_row_witness :
  ((String "i" "", 0) ∈ [("i", 0); ("j", 1); ("k", 2)] /\ 0 < length [96; 128; 60]%Z) /\
  get_phenc_info "i--" (1 # 2) [96; 128; 60]%Z
    = Ok ("i--", [[1; 0; 0; Qmult (1 # 2) 96]%Q]).
Proof.
  assert (Hin : (String "i" "", 0) ∈ [("i", 0); ("j", 1); ("k", 2)]) by set_solver.
  assert (Hl : 0 < length [96; 128; 60]%Z) by (simpl; lia).
  split; [split; assumption|].
  exact (proj1 (get_phenc_info_row "i" "--" 0 (1 # 2) [96; 128; 60]%Z Hin) Hl).
Defined.

Lemma get_phenc_info_shape (d d' : string) (eff_echo : Q) (img_size : list Z)
    (a : list (list Q)) :
  get_phenc_info d eff_echo img_size = Ok (d', a) -> exists row, a = [row] /\ length row = 4.
Proof.
  destruct d as [|c rest]; [discriminate|].
  unfold get_phenc_info, py_str_index. simpl String.get. cbv [mbind result_bind].
  unfold possible_vecs.
  destruct (String.eqb (String c "") "i");
    [|destruct (String.eqb (String c "") "j");
      [|destruct (String.eqb (String c "") "k"); [|discriminate]]];
    destruct (bool_decide _ && py_endswith _ _);
    destruct img_size as [|x0 [|x1 [|x2 img']]]; simpl; intros H; try discriminate;
    injection H as _ <-; eexists; split; reflexivity.
Qed.

(** [np.vstack] of the one-row tables that [get_phenc_info] produces, one
    per acquisition, always succeeds: one row per acquisition, in order,
    each of four columns; with no acquisition at all it raises. *)
Theorem concat_dir_phenc_data_stack :
  concat_dir_phenc_data [] = Err (ValueError "need at least one array to concatenate") /\
  (forall pe_data : list (list (list Q)),
     Forall (fun a => exists d eff_echo img_size,
                        get_phenc_info d eff_echo img_size = Ok (d, a)) pe_data ->
     pe_data <> [] ->
     concat_dir_phenc_data pe_data = Ok (concat pe_data) /\
     length (concat pe_data) = length pe_data /\
     Forall (fun r => length r = 4) (concat pe_data)).
Proof.
  split; [reflexivity|].
  intros pe_data Hall Hne.
  assert (Hrows : Forall (fun a => exists row, a = [row] /\ length row = 4) pe_data).
  { eapply Forall_impl; [exact Hall|].
    intros a (d & e & img & H). by eapply get_phenc_info_shape. }
  assert (Hlen : length (concat pe_data) = length pe_data /\
                 Forall (fun r => length r = 4) (concat pe_data)).
  { clear Hall Hne. induction Hrows as [|a l (row & -> & Hr) _ [IH1 IH2]]; [done|].
    simpl. split; [lia|]. by constructor. }
  split; [|exact Hlen].
  destruct Hlen as [_ H4].
  destruct pe_data as [|a l]; [done|].
  apply Forall_cons in Hrows as [(row & -> & Hr) _].
  unfold concat_dir_phenc_data, np_vstack. rewrite Hr.
  replace (forallb _ _) with true; [done|].
  symmetry. apply forallb_forall. intros r Hin.
  apply bool_decide_eq_true_2. rewrite Forall_forall in H4.
  apply H4. by apply list_elem_of_In.
Qed.

Lemma concat_dir_phenc_data_stack_witness :
  (Forall (fun a => exists d eff_echo img_size,
                      get_phenc_info d eff_echo img_size = Ok (d, a))
     [[map inject_Z [0; 1; 0]%Z ++ [Qmult (1 # 2) (inject_Z 128)]];
      [map inject_Z [0; -1; 0]%Z ++ [Qmult (1 # 2) (inject_Z 128)]]] /\
   [[map inject_Z [0; 1; 0]%Z ++ [Qmult (1 # 2) (inject_Z 128)]];
    [map inject_Z [0; -1; 0]%Z ++ [Qmult (1 # 2) (inject_Z 128)]]] <> []) /\
  concat_dir_phenc_data
    [[map inject_Z [0; 1; 0]%Z ++ [Qmult (1 # 2) (inject_Z 128)]];
     [map inject_Z [0; -1; 0]%Z ++ [Qmult (1 # 2) (inject_Z 128)]]]
  = Ok [map inject_Z [0; 1; 0]%Z ++ [Qmult (1 # 2) (inject_Z 128)];
        map inject_Z [0; -1; 0]%Z ++ [Qmult (1 # 2) (inject_Z 128)]].
Proof.
  assert (H1 : Forall (fun a => exists d eff_echo img_size,
                        get_phenc_info d eff_echo img_size = Ok (d, a))
     [[map inject_Z [0; 1; 0]%Z ++ [Qmult (1 # 2) (inject_Z 128)]];
      [map inject_Z [0; -1; 0]%Z ++ [Qmult (1 # 2) (inject_Z 128)]]]).
  { repeat constructor.
    - exists "j", (1 # 2), [96; 128; 60; 71]%Z. reflexivity.
    - exists "j-", (1 # 2), [96; 128; 60; 71]%Z. reflexivity. }
  assert (H2 : [[map inject_Z [0; 1; 0]%Z ++ [Qmult (1 # 2) (inject_Z 128)]];
                [map inject_Z [0; -1; 0]%Z ++ [Qmult (1 # 2) (inject_Z 128)]]] <> [])
    by discriminate.
  split; [split; assumption|].
  exact (proj1 (proj2 concat_dir_phenc_data_stack _ H1 H2)).
Defined.

End PhencMore.

(** ** [normalize] *)

Module NormalizeMore.
Import Normalize NormalizeProofs.

Lemma normalize_loop_int (ref_mean : Q) (p l : list (list Q)) :
  normalize_loop ref_mean (seq (length p) (length l)) (mk_ndarray DInt (p ++ l))
  = if forallb (fun fr => np_isclose0 (np_mean fr)) l
    then Ok (mk_ndarray DInt (p ++ l)) else Err UFuncTypeError.
Proof.
  revert p. induction l as [|x l IH]; intros p; [done|].
  cbn [length seq normalize_loop forallb].
  unfold frame_at. simpl frames.
  rewrite lookup_app_r by lia. rewrite Nat.sub_diag. simpl.
  destruct (np_isclose0 (np_mean x)) eqn:Hx; simpl.
  - specialize (IH (p ++ [x])). rewrite length_app in IH. simpl in IH.
    rewrite Nat.add_1_r, <- app_assoc in IH. exact IH.
  - reflexivity.
Qed.

(** On an image with no frame [normalize] raises [IndexError]. On an
    integer-typed image it succeeds exactly when every frame's mean is
    close to zero, and then returns the image unchanged; any other integer
    image raises [UFuncTypeError] (the in-place float multiply). *)
Theorem normalize_int_volume (dt : dtype) (fs : list (list Q)) (aff : list (list Q))
    (hdr : list (string * string)) :
  normalize (mk_nifti (mk_ndarray dt []) aff hdr) = Err IndexError /\
  normalize (mk_nifti (mk_ndarray DInt fs) aff hdr)
    = match fs with
      | [] => Err IndexError
      | _ => if forallb (fun fr => np_isclose0 (np_mean fr)) fs
             then Ok (mk_nifti (mk_ndarray DInt fs) aff hdr) else Err UFuncTypeError
      end.
Proof.
  split; [reflexivity|].
  destruct fs as [|fr0 rest]; [reflexivity|].
  unfold normalize. unfold frame_at at 1. simpl.
  pose proof (normalize_loop_int (np_mean fr0) [] (fr0 :: rest)) as H.
  simpl in H. simpl. rewrite H.
  destruct (np_isclose0 (np_mean fr0) && forallb _ rest); reflexivity.
Qed.

(** On a floating image with at least one frame, [normalize] passes the
    affine and header through, keeps the number of frames, keeps every
    frame whose mean is close to zero, and multiplies every other frame
    [t] elementwise by [mean(frame 0) / mean(frame t)]. The rationals stand
    for float64 values: the statement names the operations applied to
    each frame, not the rounded results. *)
Theorem normalize_float_frames (fs : list (list Q)) (aff : list (list Q))
    (hdr : list (string * string)) (fr0 : list Q) :
  fs !! 0 = Some fr0 ->
  exists fs', normalize (mk_nifti (mk_ndarray DFloat fs) aff hdr)
                = Ok (mk_nifti (mk_ndarray DFloat fs') aff hdr) /\
    length fs' = length fs /\
    forall t fr, fs !! t = Some fr ->
      fs' !! t = Some (if np_isclose0 (np_mean fr) then fr
                       else map (fun x => Qmult x (np_mean fr0 / np_mean fr)) fr).
Proof.
  intros H0.
  destruct (normalize_float_spec fs aff hdr fr0 H0)
    as (fs' & Hrun & Hlen & _ & Hkeep & Hscale).
  exists fs'. split; [exact Hrun|]. split; [exact Hlen|].
  intros t fr Ht. destruct (np_isclose0 (np_mean fr)) eqn:Hc.
  - exact (Hkeep t fr Ht Hc).
  - destruct (Hscale t fr Ht Hc) as (fr' & Hfr' & -> & _). exact Hfr'.
Qed.

Lemma normalize_float_frames_witness :
  [[2; 2]; [4; 4]; [0; 0]]%Q !! 0 = Some [2; 2]%Q /\
  exists fs', normalize (mk_nifti (mk_ndarray DFloat [[2; 2]; [4; 4]; [0; 0]]%Q) [] [])
                = Ok (mk_nifti (mk_ndarray DFloat fs') [] []) /\ length fs' = 3 /\
    fs' !! 2 = Some [0; 0]%Q.
Proof.
  assert (H0 : [[2; 2]; [4; 4]; [0; 0]]%Q !! 0 = Some [2; 2]%Q) by reflexivity.
  split; [exact H0|].
  destruct (normalize_float_frames [[2; 2]; [4; 4]; [0; 0]]%Q [] [] [2; 2]%Q H0)
    as (fs' & Hrun & Hlen & Hfr).
  exists fs'. split; [exact Hrun|]. split; [exact Hlen|].
  exact (Hfr 2 [0; 0]%Q eq_refl).
Defined.

End NormalizeMore.

(** ** [rotate_bvec] *)

Module RotateMore.
Import Rotate RotateProofs.

(** The entries of the rotated table (shared by the statements below). *)
Lemma rotate_bvec_entries (T B : matrix) (n : nat) :
  3 <= length T -> Forall (fun r => 3 <= length r) T ->
  length B = 3 -> Forall (fun r => length r = n) B ->
  exists R, rotate_bvec B T = Ok R /\ length R = 3 /\ Forall (fun r => length r = n) R /\
    (forall i j : nat, i < 3 -> j < n ->
       (entry R i j == entry T i 0 * entry B 0 j + entry T i 1 * entry B 1 j
                       + entry T i 2 * entry B 2 j)%Q).
Proof.
  intros HT HTr HB HBr.
  destruct T as [|r0 [|r1 [|r2 Trest]]]; simpl in HT; try lia.
  destruct B as [|b0 [|b1 [|b2 [|b3 Brest]]]]; simpl in HB; try lia.
  apply Forall_cons in HTr as [H0 HTr]. apply Forall_cons in HTr as [H1 HTr].
  apply Forall_cons in HTr as [H2 _].
  destruct r0 as [|a00 [|a01 [|a02 r0]]]; simpl in H0; try lia.
  destruct r1 as [|a10 [|a11 [|a12 r1]]]; simpl in H1; try lia.
  destruct r2 as [|a20 [|a21 [|a22 r2]]]; simpl in H2; try lia.
  pose proof HBr as HBr'.
  apply Forall_cons in HBr' as [Hb0 _].
  unfold rotate_bvec, np_dot, np_slice33. simpl. rewrite Hb0.
  rewrite decide_True by (split; [done|repeat constructor]).
  eexists. split; [reflexivity|]. split; [done|]. split.
  { repeat constructor; by rewrite length_map, length_seq. }
  intros i j Hi Hj. unfold entry.
  destruct i as [|[|[|i]]]; try lia; simpl; rewrite nth_map_seq by done;
    unfold dot_vec, col; simpl; ring.
Qed.

(** Given a transformation of at least 3x3 and a b-vector table as
    [np.loadtxt] returns a 2-d array (at least two rows, rows of one common
    length of at least two), [rotate_bvec] succeeds exactly when the table
    has three rows, and then returns three rows of the table's width;
    otherwise [np.dot] raises [ValueError]. A table stored one vector per
    line (N rows of 3, with 2 <= N and N <> 3) is rejected. *)
Theorem rotate_bvec_shape (T B : matrix) :
  3 <= length T -> Forall (fun r => 3 <= length r) T ->
  2 <= length B -> 2 <= length (hd [] B) ->
  Forall (fun r => length r = length (hd [] B)) B ->
  match rotate_bvec B T with
  | Ok R => length B = 3 /\ length R = 3 /\ Forall (fun r => length r = length (hd [] B)) R
  | Err e => e = ValueError "shapes not aligned" /\ length B <> 3
  end.
Proof.
  intros HT HTr _ _ HF.
  destruct T as [|r0 [|r1 [|r2 Trest]]]; simpl in HT; try lia.
  apply Forall_cons in HTr as [H0 HTr]. apply Forall_cons in HTr as [H1 HTr].
  apply Forall_cons in HTr as [H2 _].
  destruct r0 as [|a00 [|a01 [|a02 r0]]]; simpl in H0; try lia.
  destruct r1 as [|a10 [|a11 [|a12 r1]]]; simpl in H1; try lia.
  destruct r2 as [|a20 [|a21 [|a22 r2]]]; simpl in H2; try lia.
  unfold rotate_bvec, np_dot, np_slice33.
  replace (match B with [] => 0 | r :: _ => length r end) with (length (hd [] B))
    by (destruct B; reflexivity).
  destruct (decide _) as [[_ HA]|Hn].
  - simpl in HA. apply Forall_cons in HA as [HA _]. simpl in HA.
    split; [lia|]. split; [reflexivity|].
    repeat constructor; by rewrite length_map, length_seq.
  - split; [done|]. intros HB. apply Hn. split; [exact HF|].
    rewrite HB. simpl. repeat constructor.
Qed.

Lemma rotate_bvec_shape_witness :
  (3 <= length [[1; 0; 0; 0]; [0; 1; 0; 0]; [0; 0; 1; 0]; [0; 0; 0; 1]]%Q /\
   Forall (fun r => 3 <= length r) [[1; 0; 0; 0]; [0; 1; 0; 0]; [0; 0; 1; 0]; [0; 0; 0; 1]]%Q /\
   2 <= length [[1; 0; 0]; [0; 1; 0]; [0; 0; 1]; [1; 0; 0]]%Q /\
   2 <= length (hd [] [[1; 0; 0]; [0; 1; 0]; [0; 0; 1]; [1; 0; 0]]%Q) /\
   Forall (fun r => length r = length (hd [] [[1; 0; 0]; [0; 1; 0]; [0; 0; 1]; [1; 0; 0]]%Q))
     [[1; 0; 0]; [0; 1; 0]; [0; 0; 1]; [1; 0; 0]]%Q) /\
  rotate_bvec [[1; 0; 0]; [0; 1; 0]; [0; 0; 1]; [1; 0; 0]]%Q
    [[1; 0; 0; 0]; [0; 1; 0; 0]; [0; 0; 1; 0]; [0; 0; 0; 1]]%Q
    = Err (ValueError "shapes not aligned").
Proof.
  assert (H1 : 3 <= length [[1; 0; 0; 0]; [0; 1; 0; 0]; [0; 0; 1; 0]; [0; 0; 0; 1]]%Q)
    by (simpl; lia).
  assert (H2 : Forall (fun r => 3 <= length r)
                 [[1; 0; 0; 0]; [0; 1; 0; 0]; [0; 0; 1; 0]; [0; 0; 0; 1]]%Q)
    by (repeat constructor; simpl; lia).
  assert (H3 : 2 <= length [[1; 0; 0]; [0; 1; 0]; [0; 0; 1]; [1; 0; 0]]%Q) by (simpl; lia).
  assert (H4 : 2 <= length (hd [] [[1; 0; 0]; [0; 1; 0]; [0; 0; 1]; [1; 0; 0]]%Q))
    by (simpl; lia).
  assert (H5 : Forall (fun r => length r = length (hd [] [[1; 0; 0]; [0; 1; 0]; [0; 0; 1]; [1; 0; 0]]%Q))
                 [[1; 0; 0]; [0; 1; 0]; [0; 0; 1]; [1; 0; 0]]%Q)
    by (repeat constructor).
  split; [repeat split; assumption|].
  pose proof (rotate_bvec_shape _ [[1; 0; 0]; [0; 1; 0]; [0; 0; 1]; [1; 0; 0]]%Q H1 H2 H3 H4 H5)
    as H.
  destruct (rotate_bvec _ _) as [R|e].
  - destruct H as [Hl _]. discriminate.
  - destruct H as [-> _]. reflexivity.
Defined.

(** A transformation whose 3x3 block is a signed permutation (row [i] has
    its single non-zero entry [sg i], equal to 1 or -1, in column [p i])
    reorders the rows of the b-vector table and flips their signs: row [i]
    of the result is [sg i] times row [p i] of the table. Each entry of the
    result is one product by 1 or -1 plus products by 0, all exact in
    float64, so for finite entries the statement holds for numpy's result
    as well. *)
Theorem rotate_bvec_signed_permutation (T B : matrix) (n : nat) (p : nat -> nat) (sg : nat -> Q) :
  3 <= length T -> Forall (fun r => 3 <= length r) T ->
  length B = 3 -> Forall (fun r => length r = n) B ->
  (forall i, i < 3 -> p i < 3 /\ (sg i = 1 \/ sg i = -1)%Q) ->
  (forall i k, i < 3 -> k < 3 -> entry T i k = if decide (k = p i) then sg i else 0%Q) ->
  exists R, rotate_bvec B T = Ok R /\ length R = 3 /\ Forall (fun r => length r = n) R /\
    forall i j : nat, i < 3 -> j < n -> (entry R i j == sg i * entry B (p i) j)%Q.
Proof.
  intros HT HTr HB HBr Hp HTe.
  destruct (rotate_bvec_entries T B n HT HTr HB HBr) as (R & ER & LR & FR & HR).
  exists R. split; [exact ER|]. split; [exact LR|]. split; [exact FR|].
  intros i j Hi Hj. rewrite (HR i j Hi Hj).
  rewrite (HTe i 0), (HTe i 1), (HTe i 2) by lia.
  destruct (Hp i Hi) as [Hpi _].
  destruct (p i) as [|[|[|k]]]; try lia; repeat case_decide; try lia; ring.
Qed.

Lemma rotate_bvec_signed_permutation_witness :
  (3 <= length [[0; 1; 0; 5]; [-1; 0; 0; 6]; [0; 0; 1; 7]; [0; 0; 0; 1]]%Q /\
   Forall (fun r => 3 <= length r) [[0; 1; 0; 5]; [-1; 0; 0; 6]; [0; 0; 1; 7]; [0; 0; 0; 1]]%Q /\
   length [[1; 0]; [0; 1]; [0; 0]]%Q = 3 /\
   Forall (fun r => length r = 2) [[1; 0]; [0; 1]; [0; 0]]%Q) /\
  exists R,
    rotate_bvec [[1; 0]; [0; 1]; [0; 0]]%Q
      [[0; 1; 0; 5]; [-1; 0; 0; 6]; [0; 0; 1; 7]; [0; 0; 0; 1]]%Q = Ok R /\
    length R = 3 /\ Forall (fun r => length r = 2) R /\
    forall i j : nat, i < 3 -> j < 2 ->
      (entry R i j == (fun i : nat => match i with S O => (-1)%Q | _ => 1%Q end) i *
                      entry [[1; 0]; [0; 1]; [0; 0]]%Q
                        ((fun i : nat => match i with O => 1%nat | S O => 0%nat | _ => 2%nat end) i) j)%Q.
Proof.
  assert (H1 : 3 <= length [[0; 1; 0; 5]; [-1; 0; 0; 6]; [0; 0; 1; 7]; [0; 0; 0; 1]]%Q)
    by (simpl; lia).
  assert (H2 : Forall (fun r => 3 <= length r)
                 [[0; 1; 0; 5]; [-1; 0; 0; 6]; [0; 0; 1; 7]; [0; 0; 0; 1]]%Q)
    by (repeat constructor; simpl; lia).
  assert (H3 : length [[1; 0]; [0; 1]; [0; 0]]%Q = 3) by reflexivity.
  assert (H4 : Forall (fun r => length r = 2) [[1; 0]; [0; 1]; [0; 0]]%Q)
    by (repeat constructor).
  assert (H5 : forall i, i < 3 ->
            (fun i : nat => match i with O => 1%nat | S O => 0%nat | _ => 2%nat end) i < 3 /\
            ((fun i : nat => match i with S O => (-1)%Q | _ => 1%Q end) i = 1 \/
             (fun i : nat => match i with S O => (-1)%Q | _ => 1%Q end) i = -1)%Q).
  { intros i Hi. destruct i as [|[|[|i]]]; try lia; simpl; auto. }
  assert (H6 : forall i k, i < 3 -> k < 3 ->
            entry [[0; 1; 0; 5]; [-1; 0; 0; 6]; [0; 0; 1; 7]; [0; 0; 0; 1]]%Q i k
            = if decide (k = (fun i : nat => match i with O => 1%nat | S O => 0%nat | _ => 2%nat end) i)
              then (fun i : nat => match i with S O => (-1)%Q | _ => 1%Q end) i else 0%Q).
  { intros i k Hi Hk.
    destruct i as [|[|[|i]]]; try lia; destruct k as [|[|[|k]]]; try lia; vm_compute; reflexivity. }
  split; [repeat split; assumption|].
  exact (rotate_bvec_signed_permutation _ _ 2 _ _ H1 H2 H3 H4 H5 H6).
Defined.

End RotateMore.

(** ** [save] *)

Module PersistMore.
Import Persist PersistProofs.

Lemma mkdir_go_frame (pre rest : list string) (n n' : gmap (list string) node) :
  mkdir_go pre rest n = Ok n' ->
  forall k, n' !! k = n !! k \/
            (n !! k = None /\ n' !! k = Some Dir /\ k `prefix_of` pre ++ rest /\
             length pre < length k).
Proof.
  revert pre n. induction rest as [|c rest IH]; intros pre n H k; simpl in H.
  - injection H as <-. by left.
  - destruct (n !! (pre ++ [c])) as [[cn|]|] eqn:Ha.
    + discriminate.
    + destruct (IH _ _ H k) as [E|(E1 & E2 & E3 & E4)]; [by left|].
      right. rewrite <- app_assoc in E3. rewrite length_app in E4. simpl in E4.
      repeat split; auto; lia.
    + destruct (IH _ _ H k) as [E|(E1 & E2 & E3 & E4)].
      * destruct (decide (k = pre ++ [c])) as [->|Hne].
        -- right. rewrite lookup_insert_eq in E. split; [done|]. split; [done|].
           split; [exists rest; by rewrite <- app_assoc|].
           rewrite length_app. simpl. lia.
        -- left. by rewrite lookup_insert_ne in E by congruence.
      * right. rewrite lookup_insert_None in E1. destruct E1 as [E1 _].
        rewrite <- app_assoc in E3. rewrite length_app in E4. simpl in E4.
        repeat split; auto; lia.
Qed.

Lemma mkdir_go_dir (pre rest : list string) (n n' : gmap (list string) node) :
  mkdir_go pre rest n = Ok n' -> rest <> [] -> n' !! (pre ++ rest) = Some Dir.
Proof.
  revert pre n. induction rest as [|c rest IH]; intros pre n H Hne; [done|].
  simpl in H.
  destruct (n !! (pre ++ [c])) as [[cn|]|] eqn:Ha; [discriminate| |].
  - destruct rest as [|c' rest'].
    + simpl in H. injection H as <-. exact Ha.
    + replace (pre ++ c :: c' :: rest') with ((pre ++ [c]) ++ c' :: rest')
        by (by rewrite <- app_assoc).
      apply (IH _ _ H). discriminate.
  - destruct rest as [|c' rest'].
    + simpl in H. injection H as <-. by rewrite lookup_insert_eq.
    + replace (pre ++ c :: c' :: rest') with ((pre ++ [c]) ++ c' :: rest')
        by (by rewrite <- app_assoc).
      apply (IH _ _ H). discriminate.
Qed.

Lemma mkdir_go_ok (pre rest : list string) (n : gmap (list string) node) :
  (forall k c, k `prefix_of` pre ++ rest -> n !! k <> Some (File c)) ->
  exists n', mkdir_go pre rest n = Ok n'.
Proof.
  revert pre n. induction rest as [|c rest IH]; intros pre n Hno; [by eexists|].
  simpl.
  assert (Hp : forall k, k `prefix_of` (pre ++ [c]) ++ rest -> k `prefix_of` pre ++ c :: rest)
    by (intros k; by rewrite <- app_assoc).
  destruct (n !! (pre ++ [c])) as [[cn|]|] eqn:Ha.
  - exfalso. apply (Hno (pre ++ [c]) cn); [|done].
    exists rest. by rewrite <- app_assoc.
  - apply IH. intros k cn Hk. by apply Hno, Hp.
  - apply IH. intros k cn Hk.
    destruct (decide (k = pre ++ [c])) as [->|Hne].
    + by rewrite lookup_insert_eq.
    + rewrite lookup_insert_ne by congruence. by apply Hno, Hp.
Qed.

Lemma removelast_length {A} (l : list A) :
  l <> [] -> length (removelast l) = length l - 1.
Proof.
  induction l as [|x l IH]; intros H; [done|].
  destruct l as [|y l]; [done|].
  change (length (x :: removelast (y :: l)) = length (x :: y :: l) - 1).
  simpl in *. rewrite IH by done. lia.
Qed.

Lemma find_index_lt (p : string -> bool) (xs : list string) (i : nat) :
  find_index p xs = Some i -> i < length xs.
Proof.
  revert i. induction xs as [|x xs IH]; intros i H; simpl in H; [discriminate|].
  destruct (p x); [injection H as <-; simpl; lia|].
  destruct (find_index p xs) as [j|] eqn:Hj; simpl in H; [|discriminate].
  injection H as <-. specialize (IH j eq_refl). simpl. lia.
Qed.

Lemma copy2_ok (f f' : fs) (src dst : path) :
  copy2 f src dst = Ok f' ->
  exists c d, nodes f !! resolve f src = Some (File c) /\ d <> resolve f src /\
              f' = mk_fs (cwd f) (<[d := File c]> (nodes f)).
Proof.
  unfold copy2. intros H.
  case_bool_decide as Hsame; [discriminate|].
  destruct (nodes f !! resolve f src) as [[c|]|] eqn:Hs; try discriminate.
  set (d := if is_dir f (resolve f dst) then _ else _) in *.
  exists c, d. split; [reflexivity|]. split.
  { intros Heq. apply Hsame. split; [done|]. by eexists. }
  destruct (removelast d) as [|x l] eqn:Hp; simpl in H.
  - destruct (nodes f !! d) as [[]|]; simpl in H; congruence.
  - destruct (nodes f !! (x :: l)) as [[]|]; simpl in H; try discriminate.
    destruct (nodes f !! d) as [[]|]; simpl in H; congruence.
Qed.

(** What a successful [save] of one artifact does, whatever the output
    root: the artifact was a file, its content is now stored at one
    location other than the artifact's own, and every other location is
    either as before or a newly created directory (no other file is
    touched); the working directory is unchanged. *)
Theorem save_one_effect (f f' : fs) (file out_dir : path) :
  save_one f file out_dir = Ok f' ->
  cwd f' = cwd f /\
  exists d c,
    nodes f !! resolve f file = Some (File c) /\ d <> resolve f file /\
    nodes f' !! d = Some (File c) /\
    forall k, k <> d ->
      nodes f' !! k = nodes f !! k \/ (nodes f !! k = None /\ nodes f' !! k = Some Dir).
Proof.
  unfold save_one. destruct (find_index _ _) as [idx|]; [|discriminate].
  unfold mkdir_parents_exist_ok.
  destruct (mkdir_go [] _ (nodes f)) as [n'|e] eqn:Hm; simpl; [|discriminate].
  intros H. apply copy2_ok in H as (c & d & Hs & Hne & ->).
  change (resolve (mk_fs (cwd f) n') file) with (resolve f file) in Hs, Hne.
  pose proof (mkdir_go_frame _ _ _ _ Hm) as Hfr.
  split; [reflexivity|]. exists d, c.
  assert (Hs0 : nodes f !! resolve f file = Some (File c)).
  { destruct (Hfr (resolve f file)) as [E|(_ & E & _)]; simpl in Hs; congruence. }
  split; [exact Hs0|]. split; [exact Hne|]. split.
  - simpl. by rewrite lookup_insert_eq.
  - intros k Hk. simpl. rewrite lookup_insert_ne by congruence.
    destruct (Hfr k) as [E|(E1 & E2 & _)]; [by left|by right].
Qed.

Lemma save_one_effect_witness :
  exists f', save_one sample_fs sample_artifact (mk_path true ["out"]) = Ok f' /\
             cwd f' = cwd sample_fs.
Proof.
  assert (H : save_one sample_fs sample_artifact (mk_path true ["out"])
              = Ok (match save_one sample_fs sample_artifact (mk_path true ["out"]) with
                    | Ok g => g | Err _ => sample_fs end))
    by (vm_compute; reflexivity).
  eexists. split; [exact H|]. exact (proj1 (save_one_effect _ _ _ _ H)).
Defined.

(** The run of [save] for an absolute output root under the conditions
    for success (shared by the statements below). *)
Lemma save_one_abs_run (f : fs) (file out_dir : path) (idx : nat) (c : string) :
  is_abs out_dir = true ->
  Forall (fun x => x <> "/") (comps file) ->
  find_index (py_contains "sub-") (parts file) = Some idx ->
  nodes f !! resolve f file = Some (File c) ->
  resolve f file <> comps out_dir ++ drop idx (parts file) ->
  nodes f !! (comps out_dir ++ drop idx (parts file)) <> Some Dir ->
  (forall k c', k `prefix_of` removelast (comps out_dir ++ drop idx (parts file)) ->
                nodes f !! k <> Some (File c')) ->
  exists n',
    save_one f file out_dir
      = Ok (mk_fs (cwd f) (<[comps out_dir ++ drop idx (parts file) := File c]> n')) /\
    (forall k, n' !! k = nodes f !! k \/ (nodes f !! k = None /\ n' !! k = Some Dir)) /\
    n' !! (comps out_dir ++ drop idx (parts file)) = nodes f !! (comps out_dir ++ drop idx (parts file)).
Proof.
  intros Habs Hc Hf Hs Hne Hnd Hno.
  set (D := comps out_dir ++ drop idx (parts file)) in *.
  assert (HD : D <> []).
  { pose proof (find_index_lt _ _ _ Hf) as Hlt. unfold D.
    intros E. apply (f_equal length) in E. rewrite length_app, length_drop in E.
    simpl in E. lia. }
  rewrite (save_one_dest f file out_dir idx Hc Hf). rewrite Habs. simpl.
  fold D.
  unfold mkdir_parents_exist_ok.
  change (resolve f {| is_abs := true; comps := removelast D |}) with (removelast D).
  destruct (mkdir_go_ok [] (removelast D) (nodes f)) as [n' Hm]; [exact Hno|].
  rewrite Hm. cbv [mbind result_bind].
  pose proof (mkdir_go_frame _ _ _ _ Hm) as Hfr.
  assert (HnD : n' !! D = nodes f !! D).
  { destruct (Hfr D) as [E|(_ & _ & Hp & _)]; [exact E|].
    exfalso. apply prefix_length in Hp. simpl in Hp.
    rewrite removelast_length in Hp; [|exact HD]. destruct D; [done|]. simpl in Hp. lia. }
  assert (Hns : n' !! resolve f file = Some (File c)).
  { destruct (Hfr (resolve f file)) as [E|(E & _)]; congruence. }
  exists n'. split; [|split; [|exact HnD]].
  - unfold copy2. cbv zeta.
    change (resolve (mk_fs (cwd f) n') file) with (resolve f file).
    change (resolve (mk_fs (cwd f) n') (mk_path true D)) with D.
    replace (is_dir (mk_fs (cwd f) n') D) with false.
    2:{ unfold is_dir. destruct D as [|x D']; [done|]. simpl.
        rewrite bool_decide_eq_false_2; [done|]. rewrite HnD. exact Hnd. }
    rewrite bool_decide_eq_false_2 by (intros [E _]; congruence).
    simpl. rewrite Hns.
    destruct (removelast D) as [|x l] eqn:Hp.
    + simpl. rewrite HnD. destruct (nodes f !! D) as [[]|]; [done|congruence|done].
    + pose proof (mkdir_go_dir _ _ _ _ Hm ltac:(congruence)) as Hdir.
      simpl in Hdir. rewrite ?Hp in Hdir. rewrite Hdir. simpl.
      rewrite HnD. destruct (nodes f !! D) as [[]|]; [done|congruence|done].
  - intros k. destruct (Hfr k) as [E|(E1 & E2 & _)]; [by left|by right].
Qed.

Lemma prefix_removelast_ne (k D : list string) :
  D <> [] -> k `prefix_of` removelast D -> k <> D.
Proof.
  intros HD Hp ->. apply prefix_length in Hp.
  rewrite removelast_length in Hp by exact HD. destruct D; [done|]. simpl in Hp. lia.
Qed.

Lemma no_file_on_prefixes (n : gmap (list string) node) (l : list string) :
  forallb (fun i => match n !! take i l with Some (File _) => false | _ => true end)
          (seq 0 (S (length l))) = true ->
  forall k c, k `prefix_of` l -> n !! k <> Some (File c).
Proof.
  intros Hb k c [r ->] E. apply forallb_forall with (x := length k) in Hb.
  - rewrite take_app_length, E in Hb. discriminate.
  - apply in_seq. rewrite length_app. lia.
Qed.

(** [save] into an absolute output root succeeds and stores the artifact's
    content at [out_dir / parts[idx:]] (from the first part containing
    "sub-"), provided the artifact is a file other than that destination,
    the destination is not a directory and no file lies on the way to it;
    the artifact itself keeps its content. *)
Theorem save_one_abs_stores (f : fs) (file out_dir : path) (idx : nat) (c : string) :
  is_abs out_dir = true ->
  Forall (fun x => x <> "/") (comps file) ->
  find_index (py_contains "sub-") (parts file) = Some idx ->
  nodes f !! resolve f file = Some (File c) ->
  resolve f file <> comps out_dir ++ drop idx (parts file) ->
  nodes f !! (comps out_dir ++ drop idx (parts file)) <> Some Dir ->
  (forall k c', k `prefix_of` removelast (comps out_dir ++ drop idx (parts file)) ->
                nodes f !! k <> Some (File c')) ->
  exists f', save_one f file out_dir = Ok f' /\
             nodes f' !! (comps out_dir ++ drop idx (parts file)) = Some (File c) /\
             nodes f' !! resolve f file = Some (File c).
Proof.
  intros Habs Hc Hf Hs Hne Hnd Hno.
  destruct (save_one_abs_run f file out_dir idx c Habs Hc Hf Hs Hne Hnd Hno)
    as (n' & Hsave & Hfr & _).
  eexists. split; [exact Hsave|]. simpl. split; [by rewrite lookup_insert_eq|].
  rewrite lookup_insert_ne by congruence.
  destruct (Hfr (resolve f file)) as [E|(E & _)]; congruence.
Qed.

Lemma save_one_abs_stores_witness :
  is_abs (mk_path true ["home"; "u"; "out"]) = true /\
  Forall (fun x => x <> "/") (comps sample_artifact) /\
  find_index (py_contains "sub-") (parts sample_artifact) = Some 3 /\
  nodes sample_fs !! resolve sample_fs sample_artifact = Some (File "data") /\
  resolve sample_fs sample_artifact
    <> comps (mk_path true ["home"; "u"; "out"]) ++ drop 3 (parts sample_artifact) /\
  nodes sample_fs !! (comps (mk_path true ["home"; "u"; "out"]) ++ drop 3 (parts sample_artifact))
    <> Some Dir /\
  (forall k c', k `prefix_of` removelast (comps (mk_path true ["home"; "u"; "out"])
                                           ++ drop 3 (parts sample_artifact)) ->
                nodes sample_fs !! k <> Some (File c')) /\
  exists f', save_one sample_fs sample_artifact (mk_path true ["home"; "u"; "out"]) = Ok f' /\
    nodes f' !! (comps (mk_path true ["home"; "u"; "out"]) ++ drop 3 (parts sample_artifact))
      = Some (File "data") /\
    nodes f' !! resolve sample_fs sample_artifact = Some (File "data").
Proof.
  assert (H1 : is_abs (mk_path true ["home"; "u"; "out"]) = true) by reflexivity.
  assert (H2 : Forall (fun x => x <> "/") (comps sample_artifact))
    by (simpl; repeat constructor; discriminate).
  assert (H3 : find_index (py_contains "sub-") (parts sample_artifact) = Some 3)
    by (vm_compute; reflexivity).
  assert (H4 : nodes sample_fs !! resolve sample_fs sample_artifact = Some (File "data"))
    by (vm_compute; reflexivity).
  assert (H5 : resolve sample_fs sample_artifact
    <> comps (mk_path true ["home"; "u"; "out"]) ++ drop 3 (parts sample_artifact))
    by (vm_compute; discriminate).
  assert (H6 : nodes sample_fs !! (comps (mk_path true ["home"; "u"; "out"])
                                   ++ drop 3 (parts sample_artifact)) <> Some Dir)
    by (vm_compute; discriminate).
  assert (H7 : forall k c', k `prefix_of` removelast (comps (mk_path true ["home"; "u"; "out"])
                                                       ++ drop 3 (parts sample_artifact)) ->
                            nodes sample_fs !! k <> Some (File c'))
    by (apply no_file_on_prefixes; vm_compute; reflexivity).
  split; [exact H1|]. split; [exact H2|]. split; [exact H3|]. split; [exact H4|].
  split; [exact H5|]. split; [exact H6|]. split; [exact H7|].
  exact (save_one_abs_stores _ _ _ _ _ H1 H2 H3 H4 H5 H6 H7).
Defined.

(** Running [save] again after the artifact's content has changed
    replaces the copy saved by the first run with the new content. *)
Theorem save_one_rerun_overwrites (f f' : fs) (file out_dir : path) (idx : nat)
    (c c2 : string) :
  is_abs out_dir = true ->
  Forall (fun x => x <> "/") (comps file) ->
  find_index (py_contains "sub-") (parts file) = Some idx ->
  nodes f !! resolve f file = Some (File c) ->
  resolve f file <> comps out_dir ++ drop idx (parts file) ->
  nodes f !! (comps out_dir ++ drop idx (parts file)) <> Some Dir ->
  (forall k c', k `prefix_of` removelast (comps out_dir ++ drop idx (parts file)) ->
                nodes f !! k <> Some (File c')) ->
  save_one f file out_dir = Ok f' ->
  exists f'', save_one (set_content f' (resolve f file) c2) file out_dir = Ok f'' /\
              nodes f'' !! (comps out_dir ++ drop idx (parts file)) = Some (File c2).
Proof.
  intros Habs Hc Hf Hs Hne Hnd Hno Hrun.
  destruct (save_one_abs_run f file out_dir idx c Habs Hc Hf Hs Hne Hnd Hno)
    as (n' & Hsave & Hfr & _).
  rewrite Hsave in Hrun. injection Hrun as <-.
  set (D := comps out_dir ++ drop idx (parts file)) in *.
  assert (HD : D <> []).
  { pose proof (find_index_lt _ _ _ Hf) as Hlt. unfold D.
    intros E. apply (f_equal length) in E. rewrite length_app, length_drop in E.
    simpl in E. lia. }
  set (f2 := set_content (mk_fs (cwd f) (<[D := File c]> n')) (resolve f file) c2).
  assert (Hr : resolve f2 file = resolve f file) by reflexivity.
  assert (Hs2 : nodes f2 !! resolve f2 file = Some (File c2))
    by (rewrite Hr; simpl; by rewrite lookup_insert_eq).
  assert (Hnd2 : nodes f2 !! D <> Some Dir).
  { simpl. rewrite lookup_insert_ne by congruence. by rewrite lookup_insert_eq. }
  assert (Hno2 : forall k c', k `prefix_of` removelast D -> nodes f2 !! k <> Some (File c')).
  { intros k c' Hp. simpl.
    assert (Hk : k <> resolve f file).
    { intros ->. exact (Hno _ c Hp Hs). }
    rewrite lookup_insert_ne by congruence.
    rewrite lookup_insert_ne by (apply not_eq_sym, prefix_removelast_ne; assumption).
    destruct (Hfr k) as [E|(_ & E)]; rewrite E; [exact (Hno k c' Hp)|discriminate]. }
  rewrite <- Hr in Hne.
  destruct (save_one_abs_run f2 file out_dir idx c2 Habs Hc Hf Hs2 Hne Hnd2 Hno2)
    as (n'' & Hsave2 & _).
  eexists. split; [exact Hsave2|]. simpl. by rewrite lookup_insert_eq.
Qed.

Lemma save_one_rerun_overwrites_witness :
  exists f', save_one sample_fs sample_artifact (mk_path true ["home"; "u"; "out"]) = Ok f' /\
  exists f'', save_one (set_content f' (resolve sample_fs sample_artifact) "new")
                       sample_artifact (mk_path true ["home"; "u"; "out"]) = Ok f'' /\
    nodes f'' !! (comps (mk_path true ["home"; "u"; "out"]) ++ drop 3 (parts sample_artifact))
      = Some (File "new").
Proof.
  assert (H1 : is_abs (mk_path true ["home"; "u"; "out"]) = true) by reflexivity.
  assert (H2 : Forall (fun x => x <> "/") (comps sample_artifact))
    by (simpl; repeat constructor; discriminate).
  assert (H3 : find_index (py_contains "sub-") (parts sample_artifact) = Some 3)
    by (vm_compute; reflexivity).
  assert (H4 : nodes sample_fs !! resolve sample_fs sample_artifact = Some (File "data"))
    by (vm_compute; reflexivity).
  assert (H5 : resolve sample_fs sample_artifact
    <> comps (mk_path true ["home"; "u"; "out"]) ++ drop 3 (parts sample_artifact))
    by (vm_compute; discriminate).
  assert (H6 : nodes sample_fs !! (comps (mk_path true ["home"; "u"; "out"])
                                   ++ drop 3 (parts sample_artifact)) <> Some Dir)
    by (vm_compute; discriminate).
  assert (H7 : forall k c', k `prefix_of` removelast (comps (mk_path true ["home"; "u"; "out"])
                                                       ++ drop 3 (parts sample_artifact)) ->
                            nodes sample_fs !! k <> Some (File c'))
    by (apply no_file_on_prefixes; vm_compute; reflexivity).
  assert (H8 : save_one sample_fs sample_artifact (mk_path true ["home"; "u"; "out"])
              = Ok (match save_one sample_fs sample_artifact (mk_path true ["home"; "u"; "out"]) with
                    | Ok g => g | Err _ => sample_fs end))
    by (vm_compute; reflexivity).
  eexists. split; [exact H8|].
  exact (save_one_rerun_overwrites _ _ _ _ _ _ "new" H1 H2 H3 H4 H5 H6 H7 H8).
Defined.

End PersistMore.

Module AppUtilsMore.
Import Persist AppUtils PersistMore.

Lemma last_omap_cons {A B} (g : A -> option B) (x : A) (l : list A) :
  last (omap g (x :: l)) = match last (omap g l) with Some v => Some v | None => g x end.
Proof.
  simpl. change (list_omap A B g l) with (omap g l).
  destruct (g x) as [y|]; [|by destruct (last (omap g l))].
  destruct (omap g l) as [|z l'] eqn:E; [done|].
  change (last (y :: z :: l')) with (last (z :: l')).
  destruct (last (z :: l')) eqn:El; [done|].
  exfalso. apply last_None in El. discriminate.
Qed.

Lemma unique_entities_fold {V} (row : list (string * option V)) (d : gmap string V) (k : string) :
  foldl (fun d kv =>
           match kv with
           | (key, Some value) => if bool_decide (key ∈ entity_keys) then <[key := value]> d else d
           | (_, None) => d
           end) d row !! k =
  if bool_decide (k ∈ entity_keys)
  then match last (omap (fun kv => if bool_decide (kv.1 = k) then kv.2 else None) row) with
       | Some v => Some v | None => d !! k end
  else d !! k.
Proof.
  revert d. induction row as [|[k' ov] row IH]; intros d.
  - simpl. by case_bool_decide.
  - simpl foldl. rewrite IH, last_omap_cons. simpl.
    case_bool_decide as Hk.
    + destruct (last _) as [v|]; [reflexivity|].
      destruct ov as [v'|]; [|by case_bool_decide].
      destruct (bool_decide_reflect (k' ∈ entity_keys)) as [Hk'|Hk'];
        destruct (bool_decide_reflect (k' = k)) as [He|He]; subst.
      * by rewrite lookup_insert_eq.
      * by rewrite lookup_insert_ne.
      * contradiction.
      * reflexivity.
    + destruct ov as [v'|]; [|reflexivity].
      case_bool_decide as Hk'; [|reflexivity].
      rewrite lookup_insert_ne; [reflexivity|]. intros ->. contradiction.
Qed.

(** [unique_entities] keeps exactly the labels "sub", "ses" and "run";
    for each of them the value is the last non-missing one the row gives
    (a later missing value does not remove an earlier one), and the label
    is absent when the row has no non-missing value for it. *)
Theorem unique_entities_lookup {V} (row : list (string * option V)) (k : string) :
  unique_entities row !! k =
  if bool_decide (k ∈ entity_keys)
  then last (omap (fun kv => if bool_decide (kv.1 = k) then kv.2 else None) row)
  else None.
Proof.
  unfold unique_entities. rewrite unique_entities_fold.
  case_bool_decide; [|done]. by destruct (last _).
Qed.

Lemma am_bind_ok {Y A B} (m : AM Y A) (k : A -> AM Y B) (s s' : app_st Y) (a : A) :
  m s = (Ok a, s') -> (m ≫= k) s = k a s'.
Proof. intros E. unfold mbind, AM_bind. by rewrite E. Qed.

Lemma am_bind_err {Y A B} (m : AM Y A) (k : A -> AM Y B) (s s' : app_st Y) (e : exn) :
  m s = (Err e, s') -> (m ≫= k) s = (Err e, s').
Proof. intros E. unfold mbind, AM_bind. by rewrite E. Qed.

Lemma am_cfg_get_ok {Y} (cfg : gmap string val) (key : string) (v : val) (s : app_st Y) :
  cfg !! key = Some v -> am_cfg_get cfg key s = (Ok v, s).
Proof. intros E. unfold am_cfg_get. by rewrite E. Qed.

Lemma am_cfg_get_err {Y} (cfg : gmap string val) (key : string) (s : app_st Y) :
  cfg !! key = None -> am_cfg_get cfg key s = (Err (KeyError key), s).
Proof. intros E. unfold am_cfg_get. by rewrite E. Qed.

(** The working-directory step of [initialize] touches only the files. *)
Lemma wd_step_cases {Y} (w : val) (s : app_st Y) :
  exists s1,
    ((if truthy w then mkdir_val w else mret tt) s = (Ok tt, s1) \/
     exists e, (if truthy w then mkdir_val w else mret tt) s = (Err e, s1)) /\
    global_runner s1 = global_runner s /\ logs s1 = logs s.
Proof.
  destruct (truthy w).
  - destruct w as [| |p]; simpl.
    + exists s. split; [right; by eexists|done].
    + exists s. split; [right; by eexists|done].
    + unfold am_fs. destruct (mkdir_parents_exist_ok (files s) p) as [f|e].
      * eexists. split; [left; reflexivity|done].
      * exists s. split; [right; by eexists|done].
  - exists s. split; [left; reflexivity|done].
Qed.

Lemma mkdir_parents_exist_ok_ok (f : fs) (p : path) :
  (forall k c, k `prefix_of` resolve f p -> nodes f !! k <> Some (File c)) ->
  exists f', mkdir_parents_exist_ok f p = Ok f' /\ cwd f' = cwd f /\
    (resolve f p <> [] -> nodes f' !! resolve f p = Some Dir) /\
    forall k, nodes f' !! k = nodes f !! k \/ (nodes f !! k = None /\ nodes f' !! k = Some Dir).
Proof.
  intros Hno. destruct (mkdir_go_ok [] (resolve f p) (nodes f) Hno) as [n' Hm].
  exists (mk_fs (cwd f) n'). unfold mkdir_parents_exist_ok. rewrite Hm.
  split; [reflexivity|]. split; [reflexivity|]. split.
  - intros Hne. exact (mkdir_go_dir _ _ _ _ Hm Hne).
  - intros k. destruct (mkdir_go_frame _ _ _ _ Hm k) as [E|(E1 & E2 & _)]; [by left|by right].
Qed.

(** With any runner other than "Docker", "Singularity" and "Apptainer",
    [initialize] installs no runner (the [DefaultRunner] it builds is
    dropped) and logs nothing; when it returns, it returns the default
    runner's logger. *)
Theorem initialize_default_keeps_runner {Y} (lc : fs -> val -> result Y)
    (cfg : gmap string val) (s : app_st Y) :
  cfg !! "opt.runner" <> Some (VStr "Docker") ->
  cfg !! "opt.runner" <> Some (VStr "Singularity") ->
  cfg !! "opt.runner" <> Some (VStr "Apptainer") ->
  global_runner (snd (initialize lc cfg s)) = global_runner s /\
  logs (snd (initialize lc cfg s)) = logs s /\
  forall l, fst (initialize lc cfg s) = Ok l -> l = LDefault.
Proof.
  intros Hd Hsg Hap. unfold initialize.
  destruct (cfg !! "opt.working_dir") as [w|] eqn:Hw.
  2:{ rewrite (am_bind_err _ _ s s _ (am_cfg_get_err _ _ s Hw)). done. }
  rewrite (am_bind_ok _ _ s s w (am_cfg_get_ok _ _ _ s Hw)).
  destruct (wd_step_cases w s) as (s1 & [E|[e E]] & Hg & Hl).
  2:{ rewrite (am_bind_err _ _ _ _ _ E). done. }
  rewrite (am_bind_ok _ _ _ _ _ E).
  destruct (cfg !! "opt.runner") as [r|] eqn:Hr.
  2:{ rewrite (am_bind_err _ _ s1 s1 _ (am_cfg_get_err _ _ s1 Hr)). done. }
  rewrite (am_bind_ok _ _ s1 s1 r (am_cfg_get_ok _ _ _ s1 Hr)).
  rewrite bool_decide_eq_false_2 by congruence.
  rewrite bool_decide_eq_false_2.
  2:{ intros Hin. apply list_elem_of_In in Hin. simpl in Hin.
      destruct Hin as [<-|[<-|[]]]; congruence. }
  destruct (cfg !! "opt.containers") as [v|] eqn:Hc.
  - rewrite (am_bind_ok _ _ s1 s1 v (am_cfg_get_ok _ _ _ s1 Hc)). simpl.
    split; [done|]. split; [done|]. by intros l [= <-].
  - rewrite (am_bind_err _ _ s1 s1 _ (am_cfg_get_err _ _ s1 Hc)). done.
Qed.

(** With the "Docker" runner and a working directory given as a path on
    which no file lies, [initialize] creates that directory (and its
    missing ancestors, touching nothing else), installs a [DockerRunner]
    on it, logs one info record and returns the Docker logger. *)
Theorem initialize_docker {Y} (lc : fs -> val -> result Y)
    (cfg : gmap string val) (s : app_st Y) (p : path) :
  cfg !! "opt.working_dir" = Some (VPath p) ->
  cfg !! "opt.runner" = Some (VStr "Docker") ->
  (forall k c, k `prefix_of` resolve (files s) p -> nodes (files s) !! k <> Some (File c)) ->
  exists f',
    initialize lc cfg s
      = (Ok LDocker, mk_app_st f' (Some (DockerRunner (VPath p)))
                       (logs s ++ [Info LDocker "Using Docker runner for processing"])) /\
    cwd f' = cwd (files s) /\
    (resolve (files s) p <> [] -> nodes f' !! resolve (files s) p = Some Dir) /\
    forall k, nodes f' !! k = nodes (files s) !! k \/
              (nodes (files s) !! k = None /\ nodes f' !! k = Some Dir).
Proof.
  intros Hw Hr Hno.
  destruct (mkdir_parents_exist_ok_ok (files s) p Hno) as (f' & Hm & Hc & Hd & Hfr).
  exists f'. split; [|done].
  unfold initialize.
  rewrite (am_bind_ok _ _ s s _ (am_cfg_get_ok _ _ _ s Hw)).
  assert (E : (if truthy (VPath p) then mkdir_val (Y := Y) (VPath p) else mret tt) s
              = (Ok tt, mk_app_st f' (global_runner s) (logs s))).
  { simpl. unfold am_fs. by rewrite Hm. }
  rewrite (am_bind_ok _ _ _ _ _ E).
  rewrite (am_bind_ok _ _ _ _ _ (am_cfg_get_ok _ _ _ _ Hr)).
  rewrite bool_decide_eq_true_2 by reflexivity.
  rewrite (am_bind_ok _ _ _ _ _ (am_cfg_get_ok _ _ _ _ Hw)).
  reflexivity.
Qed.

(** With the "Singularity" or "Apptainer" runner and no container
    configuration, [initialize] fails before installing a runner or
    logging: with the [ValueError] about the missing configuration, or
    with the error of creating the working directory when that fails
    first. *)
Theorem initialize_missing_container_config {Y} (lc : fs -> val -> result Y)
    (cfg : gmap string val) (s : app_st Y) (w r v : val) :
  cfg !! "opt.working_dir" = Some w ->
  cfg !! "opt.runner" = Some r ->
  r = VStr "Singularity" \/ r = VStr "Apptainer" ->
  cfg !! "opt.containers" = Some v ->
  truthy v = false ->
  global_runner (snd (initialize lc cfg s)) = global_runner s /\
  logs (snd (initialize lc cfg s)) = logs s /\
  (fst (initialize lc cfg s) = Err (ValueError container_config_msg) \/
   (truthy w = true /\ exists e, fst (mkdir_val (Y := Y) w s) = Err e /\
                                 fst (initialize lc cfg s) = Err e)).
Proof.
  intros Hw Hr Hrv Hc Hv. unfold initialize.
  rewrite (am_bind_ok _ _ s s _ (am_cfg_get_ok _ _ _ s Hw)).
  destruct (wd_step_cases w s) as (s1 & [E|[e E]] & Hg & Hl).
  2:{ rewrite (am_bind_err _ _ _ _ _ E). simpl. split; [done|]. split; [done|].
      right. destruct (truthy w) eqn:Ht; [|discriminate].
      split; [done|]. exists e. by rewrite E. }
  rewrite (am_bind_ok _ _ _ _ _ E).
  rewrite (am_bind_ok _ _ _ _ _ (am_cfg_get_ok _ _ _ _ Hr)).
  rewrite bool_decide_eq_false_2 by (destruct Hrv; subst; discriminate).
  rewrite bool_decide_eq_true_2.
  2:{ apply list_elem_of_In. simpl. destruct Hrv; subst; tauto. }
  rewrite (am_bind_ok _ _ _ _ _ (am_cfg_get_ok _ _ _ _ Hc)).
  rewrite Hv. simpl. split; [done|]. split; [done|]. by left.
Qed.

(** [clean_up] with a working directory given as a path (other than the
    root): a missing location raises [FileNotFoundError] and a file
    [NotADirectoryError], changing nothing; a directory is removed with
    everything below it, every other location is kept, and the runner
    and the log are untouched. *)
Theorem clean_up_working_dir {Y} (cfg : gmap string val) (lg : logger)
    (s : app_st Y) (p : path) :
  cfg !! "opt.working_dir" = Some (VPath p) ->
  resolve (files s) p <> [] ->
  match nodes (files s) !! resolve (files s) p with
  | None => clean_up cfg lg s = (Err FileNotFoundError, s)
  | Some (File _) => clean_up cfg lg s = (Err NotADirectoryError, s)
  | Some Dir =>
      exists f', clean_up cfg lg s = (Ok tt, mk_app_st f' (global_runner s) (logs s)) /\
        cwd f' = cwd (files s) /\
        forall k, nodes f' !! k = if bool_decide (resolve (files s) p `prefix_of` k)
                                  then None else nodes (files s) !! k
  end.
Proof.
  intros Hw Hne. unfold clean_up.
  rewrite (am_bind_ok _ _ s s _ (am_cfg_get_ok _ _ _ s Hw)). simpl.
  unfold am_fs, rmtree.
  destruct (resolve (files s) p) as [|a0 rest] eqn:Ha; [done|].
  destruct (nodes (files s) !! (a0 :: rest)) as [[c|]|] eqn:Hn; try reflexivity.
  eexists. split; [reflexivity|]. split; [reflexivity|].
  intros k. simpl. rewrite map_lookup_filter.
  destruct (nodes (files s) !! k) as [x|] eqn:Hk; simpl.
  - case_bool_decide as Hp.
    + rewrite option_guard_False; [done|]. simpl. tauto.
    + rewrite option_guard_True; [done|]. simpl. exact Hp.
  - by case_bool_decide.
Qed.

(** [clean_up] with no working directory configured falls back to
    "styx_tmp" under the current directory: if it does not exist, the
    files are untouched and one warning is logged; if it is a directory,
    it is removed with everything below it; if it is a file,
    [NotADirectoryError] is raised and nothing changes. *)
Theorem clean_up_styx_tmp {Y} (cfg : gmap string val) (lg : logger)
    (s : app_st Y) (w : val) :
  cfg !! "opt.working_dir" = Some w ->
  truthy w = false ->
  let a := cwd (files s) ++ ["styx_tmp"] in
  match nodes (files s) !! a with
  | None => clean_up cfg lg s
            = (Ok tt, mk_app_st (files s) (global_runner s)
                        (logs s ++ [Warning lg "Did not clean up working directory"]))
  | Some (File _) => clean_up cfg lg s = (Err NotADirectoryError, s)
  | Some Dir =>
      exists f', clean_up cfg lg s = (Ok tt, mk_app_st f' (global_runner s) (logs s)) /\
        cwd f' = cwd (files s) /\
        forall k, nodes f' !! k = if bool_decide (a `prefix_of` k) then None
                                  else nodes (files s) !! k
  end.
Proof.
  intros Hw Hf a. unfold clean_up.
  rewrite (am_bind_ok _ _ s s _ (am_cfg_get_ok _ _ _ s Hw)). rewrite Hf.
  unfold path_exists, am_fs, am_log, rmtree.
  change (resolve (files s) (mk_path false ["styx_tmp"])) with a.
  assert (Ha : a <> []) by (unfold a; destruct (cwd (files s)); discriminate).
  destruct a as [|a0 rest] eqn:Ea; [done|].
  destruct (nodes (files s) !! (a0 :: rest)) as [[c|]|] eqn:Hn; try reflexivity.
  eexists. split; [reflexivity|]. split; [reflexivity|].
  intros k. simpl. rewrite map_lookup_filter.
  destruct (nodes (files s) !! k) as [x|] eqn:Hk; simpl.
  - case_bool_decide as Hp.
    + rewrite option_guard_False; [done|]. simpl. tauto.
    + rewrite option_guard_True; [done|]. simpl. exact Hp.
  - by case_bool_decide.
Qed.

Lemma initialize_default_keeps_runner_witness :
  let cfg : gmap string val :=
    list_to_map [("opt.working_dir", VNone); ("opt.runner", VStr "local");
                 ("opt.containers", VNone)] in
  let s : app_st unit := mk_app_st sample_fs None [] in
  cfg !! "opt.runner" <> Some (VStr "Docker") /\
  cfg !! "opt.runner" <> Some (VStr "Singularity") /\
  cfg !! "opt.runner" <> Some (VStr "Apptainer") /\
  global_runner (snd (initialize (fun _ _ => Ok tt) cfg s)) = global_runner s /\
  logs (snd (initialize (fun _ _ => Ok tt) cfg s)) = logs s /\
  forall l, fst (initialize (fun _ _ => Ok tt) cfg s) = Ok l -> l = LDefault.
Proof.
  intros cfg s.
  assert (H1 : cfg !! "opt.runner" <> Some (VStr "Docker")) by (vm_compute; discriminate).
  assert (H2 : cfg !! "opt.runner" <> Some (VStr "Singularity")) by (vm_compute; discriminate).
  assert (H3 : cfg !! "opt.runner" <> Some (VStr "Apptainer")) by (vm_compute; discriminate).
  split; [exact H1|]. split; [exact H2|]. split; [exact H3|].
  exact (initialize_default_keeps_runner (fun _ _ => Ok tt) cfg s H1 H2 H3).
Defined.

Lemma initialize_docker_witness :
  let cfg : gmap string val :=
    list_to_map [("opt.working_dir", VPath (mk_path true ["work"; "styx"]));
                 ("opt.runner", VStr "Docker")] in
  let s : app_st unit := mk_app_st sample_fs None [] in
  cfg !! "opt.working_dir" = Some (VPath (mk_path true ["work"; "styx"])) /\
  cfg !! "opt.runner" = Some (VStr "Docker") /\
  (forall k c, k `prefix_of` resolve (files s) (mk_path true ["work"; "styx"]) ->
               nodes (files s) !! k <> Some (File c)) /\
  exists f',
    initialize (fun _ _ => Ok tt) cfg s
      = (Ok LDocker, mk_app_st f' (Some (DockerRunner (VPath (mk_path true ["work"; "styx"]))))
                       (logs s ++ [Info LDocker "Using Docker runner for processing"])) /\
    cwd f' = cwd (files s) /\
    (resolve (files s) (mk_path true ["work"; "styx"]) <> [] ->
     nodes f' !! resolve (files s) (mk_path true ["work"; "styx"]) = Some Dir) /\
    forall k, nodes f' !! k = nodes (files s) !! k \/
              (nodes (files s) !! k = None /\ nodes f' !! k = Some Dir).
Proof.
  intros cfg s.
  assert (H1 : cfg !! "opt.working_dir" = Some (VPath (mk_path true ["work"; "styx"])))
    by (vm_compute; reflexivity).
  assert (H2 : cfg !! "opt.runner" = Some (VStr "Docker")) by (vm_compute; reflexivity).
  assert (H3 : forall k c, k `prefix_of` resolve (files s) (mk_path true ["work"; "styx"]) ->
                           nodes (files s) !! k <> Some (File c))
    by (apply no_file_on_prefixes; vm_compute; reflexivity).
  split; [exact H1|]. split; [exact H2|]. split; [exact H3|].
  exact (initialize_docker (fun _ _ => Ok tt) cfg s _ H1 H2 H3).
Defined.

Lemma initialize_missing_container_config_witness :
  let cfg : gmap string val :=
    list_to_map [("opt.working_dir", VNone); ("opt.runner", VStr "Singularity");
                 ("opt.containers", VNone)] in
  let s : app_st unit := mk_app_st sample_fs None [] in
  cfg !! "opt.working_dir" = Some VNone /\
  cfg !! "opt.runner" = Some (VStr "Singularity") /\
  cfg !! "opt.containers" = Some VNone /\
  truthy VNone = false /\
  global_runner (snd (initialize (fun _ _ => Ok tt) cfg s)) = global_runner s /\
  logs (snd (initialize (fun _ _ => Ok tt) cfg s)) = logs s /\
  (fst (initialize (fun _ _ => Ok tt) cfg s) = Err (ValueError container_config_msg) \/
   (truthy VNone = true /\ exists e, fst (mkdir_val (Y := unit) VNone s) = Err e /\
                                     fst (initialize (fun _ _ => Ok tt) cfg s) = Err e)).
Proof.
  intros cfg s.
  assert (H1 : cfg !! "opt.working_dir" = Some VNone) by (vm_compute; reflexivity).
  assert (H2 : cfg !! "opt.runner" = Some (VStr "Singularity")) by (vm_compute; reflexivity).
  assert (H3 : VStr "Singularity" = VStr "Singularity" \/ VStr "Singularity" = VStr "Apptainer")
    by (left; reflexivity).
  assert (H4 : cfg !! "opt.containers" = Some VNone) by (vm_compute; reflexivity).
  assert (H5 : truthy VNone = false) by reflexivity.
  split; [exact H1|]. split; [exact H2|]. split; [exact H4|]. split; [exact H5|].
  exact (initialize_missing_container_config (fun _ _ => Ok tt) cfg s _ _ _ H1 H2 H3 H4 H5).
Defined.

Lemma clean_up_working_dir_witness :
  let cfg : gmap string val := list_to_map [("opt.working_dir", VPath (mk_path true ["work"]))] in
  let s : app_st unit := mk_app_st sample_fs None [] in
  cfg !! "opt.working_dir" = Some (VPath (mk_path true ["work"])) /\
  resolve (files s) (mk_path true ["work"]) <> [] /\
  match nodes (files s) !! resolve (files s) (mk_path true ["work"]) with
  | None => clean_up cfg LDefault s = (Err FileNotFoundError, s)
  | Some (File _) => clean_up cfg LDefault s = (Err NotADirectoryError, s)
  | Some Dir =>
      exists f', clean_up cfg LDefault s = (Ok tt, mk_app_st f' (global_runner s) (logs s)) /\
        cwd f' = cwd (files s) /\
        forall k, nodes f' !! k = if bool_decide (resolve (files s) (mk_path true ["work"]) `prefix_of` k)
                                  then None else nodes (files s) !! k
  end.
Proof.
  intros cfg s.
  assert (H1 : cfg !! "opt.working_dir" = Some (VPath (mk_path true ["work"])))
    by (vm_compute; reflexivity).
  assert (H2 : resolve (files s) (mk_path true ["work"]) <> []) by (vm_compute; discriminate).
  split; [exact H1|]. split; [exact H2|].
  exact (clean_up_working_dir cfg LDefault s _ H1 H2).
Defined.

Lemma clean_up_styx_tmp_witness :
  let cfg : gmap string val := list_to_map [("opt.working_dir", VNone)] in
  let s : app_st unit := mk_app_st sample_fs None [] in
  cfg !! "opt.working_dir" = Some VNone /\
  truthy VNone = false /\
  clean_up cfg LDocker s
    = (Ok tt, mk_app_st (files s) (global_runner s)
                (logs s ++ [Warning LDocker "Did not clean up working directory"])).
Proof.
  intros cfg s.
  assert (H1 : cfg !! "opt.working_dir" = Some VNone) by (vm_compute; reflexivity).
  assert (H2 : truthy VNone = false) by reflexivity.
  split; [exact H1|]. split; [exact H2|].
  exact (clean_up_styx_tmp cfg LDocker s _ H1 H2).
Defined.

End AppUtilsMore.

Module StageMore.
Import Stage StageProofs.
Local Open Scope list_scope.

(** With method "wm" and a thread count configured, [generate_tractography]
    invokes, in this order and with these arguments, the streamline
    generator, SIFT2 and the two density maps (raw, then weighted by the
    SIFT2 weights), every kernel with the configured thread count; it then
    saves the tracks, the weights and the weighted map only (the raw map
    is never saved) under [output_dir / bids(directory=True)]. A missing
    [output_dir] is noticed only after every kernel has run. *)
Theorem generate_tractography_wm_run tckgen_impl tcksift2_impl tckmap_impl bids_name
    input_group (wm_fod : string) (s : st) (t : cfgval) :
  s.(cfg) !! method_key = Some (VStr "wm") ->
  s.(cfg) !! "opt.threads" = Some t ->
  let bids kws := bids_name ((("datatype", VStr "dwi") :: input_group) ++ kws) in
  let tc := Tckgen wm_fod (bids [("method", VStr "iFOD2"); ("suffix", VStr "tractography");
                                 ("ext", VStr ".tck")])
              "iFOD2" wm_fod
              (default VNone (s.(cfg) !! "participant.tractography.steps"))
              (default VNone (s.(cfg) !! "participant.tractography.cutoff"))
              (default VNone (s.(cfg) !! "participant.tractography.streamlines")) t in
  let tracks := tck_tracks (tckgen_impl tc) in
  let sc := Tcksift2 tracks wm_fod
              (bids [("method", VStr "SIFT2"); ("suffix", VStr "tckWeights"); ("ext", VStr ".txt")])
              t in
  let w := sift_out_weights (tcksift2_impl sc) in
  let raw := Tckmap tracks None wm_fod
               (bids [("meas", VStr "raw"); ("suffix", VStr "tdi"); ("ext", VStr ".nii.gz")]) t in
  let wt := Tckmap tracks (Some w) wm_fod
              (bids [("meas", VStr "weighted"); ("suffix", VStr "tdi"); ("ext", VStr ".nii.gz")]) t in
  let tr := s.(trace) ++ [LogInfo "Generating tractography"; Kernel tc;
                          LogInfo "Computing per-streamline multipliers"; Kernel sc;
                          Kernel raw; Kernel wt] in
  match s.(cfg) !! "output_dir" with
  | Some (VPath d) =>
      generate_tractography tckgen_impl tcksift2_impl tckmap_impl bids_name input_group wm_fod s
      = (Ok tt, mk_st s.(cfg)
                  (tr ++ [Save [tracks; w; tdi_output (tckmap_impl wt)]
                            (d +:+ "/" +:+ bids [("directory", VBool true)])]))
  | None =>
      generate_tractography tckgen_impl tcksift2_impl tckmap_impl bids_name input_group wm_fod s
      = (Err (KeyError "output_dir"), mk_st s.(cfg) tr)
  | Some _ => True
  end.
Proof.
  unfold method_key. intros Hm Ht. cbv zeta.
  destruct (cfg s !! "output_dir") as [[| | |d|]|] eqn:Ho; try exact I.
  - unfold generate_tractography, tckgen. mstep. rewrite Hm. simpl.
    do 6 (rewrite ?Ht, ?Ho; mstep).
    rewrite lookup_insert_ne by discriminate. rewrite lookup_insert_eq.
    do 3 (rewrite ?Ho; mstep).
    rewrite <- !app_assoc. reflexivity.
  - unfold generate_tractography, tckgen. mstep. rewrite Hm. simpl.
    do 6 (rewrite ?Ht, ?Ho; mstep).
    rewrite lookup_insert_ne by discriminate. rewrite lookup_insert_eq.
    do 3 (rewrite ?Ho; mstep).
    rewrite <- !app_assoc. reflexivity.
Qed.

(** With 30 or more non-zero b-values and the skip flag off, [denoise]
    calls [dwidenoise] once, asking for a noise map (named after the
    configured estimator) exactly when [denoise.map] is truthy, with the
    configured extent or [None]. Without a map it returns the denoised
    output and saves nothing; with a map it saves the map alone under
    [output_dir / bids(directory=True)] and returns the denoised output,
    or raises after the kernel call when the kernel produced no map or no
    [output_dir] is configured. *)
Theorem denoise_noise_map (impl : kernel_call -> DwidenoiseOutputs) bids_name entities
    (bval : list Q) (dwi_nii : string) (s : st) (v est mp : cfgval) :
  30 <= nonzero_count bval ->
  s.(cfg) !! skip_key = Some v -> py_truthy v = false ->
  s.(cfg) !! estimator_key = Some est -> s.(cfg) !! map_key = Some mp ->
  let bids kws := bids_name ((("datatype", VStr "dwi") :: entities) ++ kws) in
  let noise := if py_truthy mp
               then Some (bids [("algorithm", est); ("param", VStr "noise");
                                ("suffix", VStr "dwimap"); ("ext", VStr ".nii.gz")])
               else None in
  let c := Dwidenoise dwi_nii
             (bids [("desc", VStr "denoise"); ("suffix", VStr "dwi"); ("ext", VStr ".nii.gz")])
             est noise (default VNone (s.(cfg) !! "participant.preprocess.denoise.extent")) in
  let tr := s.(trace) ++ [LogInfo "Performing denoising"; Kernel c] in
  if py_truthy mp then
    match dn_noise (impl c) with
    | None => denoise impl bids_name entities bval dwi_nii s
              = (Err (ValueError "Noise map was not generated"), mk_st s.(cfg) tr)
    | Some n =>
        match s.(cfg) !! "output_dir" with
        | Some (VPath d) =>
            denoise impl bids_name entities bval dwi_nii s
            = (Ok (dn_out (impl c)),
               mk_st s.(cfg) (tr ++ [Save [n] (d +:+ "/" +:+ bids [("directory", VBool true)])]))
        | None => denoise impl bids_name entities bval dwi_nii s
                  = (Err (KeyError "output_dir"), mk_st s.(cfg) tr)
        | Some _ => True
        end
    end
  else denoise impl bids_name entities bval dwi_nii s = (Ok (dn_out (impl c)), mk_st s.(cfg) tr).
Proof.
  exact (denoise_run_exact impl bids_name entities bval dwi_nii s v est mp).
Qed.

(** The configuration is one object shared by the whole run: once one
    [denoise] call has seen fewer than 30 non-zero b-values, every later
    call on the same configuration skips denoising and returns its input,
    whatever its own b-values and entities. *)
Theorem denoise_skip_persists (impl : kernel_call -> DwidenoiseOutputs) bids_name
    entities entities2 (bval1 bval2 : list Q) (dwi1 dwi2 : string) (s : st) :
  nonzero_count bval1 < 30 ->
  let s1 := (denoise impl bids_name entities bval1 dwi1 s).2 in
  denoise impl bids_name entities2 bval2 dwi2 s1
  = (Ok dwi2, mk_st s1.(cfg)
                (s1.(trace) ++ if decide (nonzero_count bval2 < 30)
                               then [LogInfo "Less than 30 directions...skipping denoising"]
                               else [])).
Proof.
  intros H1 s1. unfold s1. rewrite (denoise_few impl bids_name entities bval1 dwi1 s H1). simpl.
  destruct (decide (nonzero_count bval2 < 30)) as [H2|H2].
  - rewrite denoise_few by exact H2. simpl. by rewrite insert_insert_eq.
  - rewrite (denoise_skip_flag impl bids_name entities2 bval2 dwi2 _ (VBool true))
      by (simpl; try rewrite lookup_insert_eq; (done || lia)).
    by rewrite app_nil_r.
Qed.

Lemma generate_tractography_wm_run_witness :
  (list_to_map [(method_key, VStr "wm"); ("opt.threads", VInt 4); ("output_dir", VPath "/out")]
     : gmap string cfgval) !! method_key = Some (VStr "wm") /\
  (list_to_map [(method_key, VStr "wm"); ("opt.threads", VInt 4); ("output_dir", VPath "/out")]
     : gmap string cfgval) !! "opt.threads" = Some (VInt 4) /\
  exists tr,
    generate_tractography sample_tckgen sample_tcksift2 sample_tckmap sample_bids
      [("sub", VStr "01")] "/work/fod/sub-01_wm_fod.mif"
      (mk_st (list_to_map [(method_key, VStr "wm"); ("opt.threads", VInt 4);
                           ("output_dir", VPath "/out")]) [])
    = (Ok tt, mk_st (list_to_map [(method_key, VStr "wm"); ("opt.threads", VInt 4);
                                  ("output_dir", VPath "/out")]) tr).
Proof.
  assert (H1 : (list_to_map [(method_key, VStr "wm"); ("opt.threads", VInt 4);
                             ("output_dir", VPath "/out")] : gmap string cfgval)
                 !! method_key = Some (VStr "wm")) by (vm_compute; reflexivity).
  assert (H2 : (list_to_map [(method_key, VStr "wm"); ("opt.threads", VInt 4);
                             ("output_dir", VPath "/out")] : gmap string cfgval)
                 !! "opt.threads" = Some (VInt 4)) by (vm_compute; reflexivity).
  split; [exact H1|]. split; [exact H2|].
  eexists.
  exact (generate_tractography_wm_run sample_tckgen sample_tcksift2 sample_tckmap sample_bids
           [("sub", VStr "01")] "/work/fod/sub-01_wm_fod.mif"
           (mk_st (list_to_map [(method_key, VStr "wm"); ("opt.threads", VInt 4);
                                ("output_dir", VPath "/out")]) []) (VInt 4) H1 H2).
Defined.

Lemma denoise_noise_map_witness :
  30 <= nonzero_count (repeat 1000%Q 30) /\
  (list_to_map [(skip_key, VBool false); (estimator_key, VStr "Exp2"); (map_key, VBool true);
                ("output_dir", VPath "/out")] : gmap string cfgval) !! skip_key
    = Some (VBool false) /\
  py_truthy (VBool false) = false /\
  (list_to_map [(skip_key, VBool false); (estimator_key, VStr "Exp2"); (map_key, VBool true);
                ("output_dir", VPath "/out")] : gmap string cfgval) !! estimator_key
    = Some (VStr "Exp2") /\
  (list_to_map [(skip_key, VBool false); (estimator_key, VStr "Exp2"); (map_key, VBool true);
                ("output_dir", VPath "/out")] : gmap string cfgval) !! map_key
    = Some (VBool true) /\
  exists tr,
    denoise (fun _ => {| dn_out := "/work/dn.nii.gz"; dn_noise := Some "/work/noise.nii.gz" |})
      sample_bids [("sub", VStr "01")] (repeat 1000%Q 30) "/data/sub-01_dwi.nii.gz"
      (mk_st (list_to_map [(skip_key, VBool false); (estimator_key, VStr "Exp2");
                           (map_key, VBool true); ("output_dir", VPath "/out")]) [])
    = (Ok "/work/dn.nii.gz",
       mk_st (list_to_map [(skip_key, VBool false); (estimator_key, VStr "Exp2");
                           (map_key, VBool true); ("output_dir", VPath "/out")]) tr).
Proof.
  assert (H1 : 30 <= nonzero_count (repeat 1000%Q 30)) by (vm_compute; lia).
  assert (H2 : (list_to_map [(skip_key, VBool false); (estimator_key, VStr "Exp2");
                             (map_key, VBool true); ("output_dir", VPath "/out")]
                  : gmap string cfgval) !! skip_key = Some (VBool false))
    by (vm_compute; reflexivity).
  assert (H3 : py_truthy (VBool false) = false) by reflexivity.
  assert (H4 : (list_to_map [(skip_key, VBool false); (estimator_key, VStr "Exp2");
                             (map_key, VBool true); ("output_dir", VPath "/out")]
                  : gmap string cfgval) !! estimator_key = Some (VStr "Exp2"))
    by (vm_compute; reflexivity).
  assert (H5 : (list_to_map [(skip_key, VBool false); (estimator_key, VStr "Exp2");
                             (map_key, VBool true); ("output_dir", VPath "/out")]
                  : gmap string cfgval) !! map_key = Some (VBool true))
    by (vm_compute; reflexivity).
  split; [exact H1|]. split; [exact H2|]. split; [exact H3|]. split; [exact H4|].
  split; [exact H5|].
  eexists.
  exact (denoise_noise_map
           (fun _ => {| dn_out := "/work/dn.nii.gz"; dn_noise := Some "/work/noise.nii.gz" |})
           sample_bids [("sub", VStr "01")] (repeat 1000%Q 30) "/data/sub-01_dwi.nii.gz"
           (mk_st (list_to_map [(skip_key, VBool false); (estimator_key, VStr "Exp2");
                                (map_key, VBool true); ("output_dir", VPath "/out")]) [])
           _ _ _ H1 H2 H3 H4 H5).
Defined.

Lemma denoise_skip_persists_witness :
  nonzero_count [] < 30 /\
  exists s',
    denoise sample_dwidenoise sample_bids [("sub", VStr "02")] (repeat 1000%Q 30)
      "/data/sub-02_dwi.nii.gz"
      (denoise sample_dwidenoise sample_bids [("sub", VStr "01")] [] "/data/sub-01_dwi.nii.gz"
         (mk_st (list_to_map [(skip_key, VBool false); (estimator_key, VStr "Exp2");
                              (map_key, VBool false)]) [])).2
    = (Ok "/data/sub-02_dwi.nii.gz", s').
Proof.
  assert (H1 : nonzero_count [] < 30) by (vm_compute; lia).
  split; [exact H1|]. eexists.
  exact (denoise_skip_persists sample_dwidenoise sample_bids [("sub", VStr "01")]
           [("sub", VStr "02")] [] (repeat 1000%Q 30) "/data/sub-01_dwi.nii.gz"
           "/data/sub-02_dwi.nii.gz"
           (mk_st (list_to_map [(skip_key, VBool false); (estimator_key, VStr "Exp2");
                                (map_key, VBool false)]) []) H1).
Defined.

End StageMore.
